(** * Function-level complexity metrics: a verified model of
      [skills/code-review/scripts/analyze-complexity.ts]

    The script parses a TypeScript/JavaScript file with the TypeScript
    compiler API, walks the syntax tree, and records four metrics for every
    function-like node.  This development embeds the walker, the four
    calculators, the accumulator of the [ComplexityAnalyzer] class, the
    directory walk and the ranking/tallying part of [printSummary], and
    proves the properties stated for them. *)

From stdpp Require Import base tactics option list gmap strings.
From Stdlib Require Import ZArith Lia Permutation Sorted.

Local Open Scope Z_scope.

(** ** Syntax trees as the TypeScript compiler API exposes them *)

Module Ast.

(** The discriminant [node.kind].  Only the kinds the script inspects are
    distinguished; every other kind of the compiler is [OtherKind]. *)
Inductive SyntaxKind : Type :=
  | SourceFileKind
  | FunctionDeclaration | MethodDeclaration | ArrowFunction | FunctionExpression
  | VariableDeclaration | PropertyAssignment
  | IfStatement | ConditionalExpression
  | WhileStatement | DoStatement | ForStatement | ForInStatement | ForOfStatement
  | SwitchStatement | CaseBlock | CaseClause | DefaultClause
  | TryStatement | CatchClause
  | BinaryExpression
  | AmpersandAmpersandToken | BarBarToken | QuestionQuestionToken
  | PlusToken | EqualsToken
  | Block | ParameterKind | Identifier | ReturnStatement | OtherKind.

(** A node: its kind, the text of its [name] property when it has one
    ([node.name?.getText()]; for an identifier that the parser's error
    recovery had to supply, the text is empty), the kind of [operatorToken]
    (read only on binary expressions), the [parameters] array (read only on
    function-like nodes), the offsets [getStart()] and [getEnd()], and the
    children in the order [ts.forEachChild] visits them.  [node.parent] is
    not stored: the walk hands the parent down. *)
#[local] Set Warnings "-register-all".
Inductive Node : Type := mkNode {
  kind : SyntaxKind;
  nameText : option string;
  operatorToken : SyntaxKind;
  parameters : list Node;
  getStart : Z;
  getEnd : Z;
  children : list Node
}.

(** The parsed unit: [fileName], the line map behind
    [getLineAndCharacterOfPosition(pos).line] (0-based), and the root node. *)
Record SourceFile : Type := mkSourceFile {
  fileName : string;
  lineOfPosition : Z -> Z;
  root : Node
}.

(** Number of nodes on the longest path from [n] down to a leaf. *)
Fixpoint height (n : Node) : nat :=
  match n with
  | mkNode _ _ _ _ _ _ cs => S (list_max (map height cs))
  end.

(** The proper descendants of [n], in document (pre-) order. *)
Fixpoint descendants (n : Node) : list Node :=
  match n with
  | mkNode _ _ _ _ _ _ cs => flat_map (fun c => c :: descendants c) cs
  end.

(** Every path that starts at a child of [n] and follows child links
    downwards, listed top-down. *)
Fixpoint pathsBelow (n : Node) : list (list Node) :=
  match n with
  | mkNode _ _ _ _ _ _ cs =>
      flat_map (fun c => [c] :: map (cons c) (pathsBelow c)) cs
  end.

Definition isFunctionDeclaration (n : Node) : bool :=
  match kind n with FunctionDeclaration => true | _ => false end.
Definition isMethodDeclaration (n : Node) : bool :=
  match kind n with MethodDeclaration => true | _ => false end.
Definition isArrowFunction (n : Node) : bool :=
  match kind n with ArrowFunction => true | _ => false end.
Definition isFunctionExpression (n : Node) : bool :=
  match kind n with FunctionExpression => true | _ => false end.
Definition isVariableDeclaration (n : Node) : bool :=
  match kind n with VariableDeclaration => true | _ => false end.
Definition isPropertyAssignment (n : Node) : bool :=
  match kind n with PropertyAssignment => true | _ => false end.
Definition isIfStatement (n : Node) : bool :=
  match kind n with IfStatement => true | _ => false end.
Definition isConditionalExpression (n : Node) : bool :=
  match kind n with ConditionalExpression => true | _ => false end.
Definition isWhileStatement (n : Node) : bool :=
  match kind n with WhileStatement => true | _ => false end.
Definition isDoStatement (n : Node) : bool :=
  match kind n with DoStatement => true | _ => false end.
Definition isForStatement (n : Node) : bool :=
  match kind n with ForStatement => true | _ => false end.
Definition isForInStatement (n : Node) : bool :=
  match kind n with ForInStatement => true | _ => false end.
Definition isForOfStatement (n : Node) : bool :=
  match kind n with ForOfStatement => true | _ => false end.
Definition isCaseClause (n : Node) : bool :=
  match kind n with CaseClause => true | _ => false end.
Definition isCatchClause (n : Node) : bool :=
  match kind n with CatchClause => true | _ => false end.
Definition isBinaryExpression (n : Node) : bool :=
  match kind n with BinaryExpression => true | _ => false end.
Definition isTryStatement (n : Node) : bool :=
  match kind n with TryStatement => true | _ => false end.
Definition isSwitchStatement (n : Node) : bool :=
  match kind n with SwitchStatement => true | _ => false end.

Definition isAmpersandAmpersand (k : SyntaxKind) : bool :=
  match k with AmpersandAmpersandToken => true | _ => false end.
Definition isBarBar (k : SyntaxKind) : bool :=
  match k with BarBarToken => true | _ => false end.

(** The test of [visitNode]: declaration, method, arrow function or
    function expression. *)
Definition isFunctionLike (n : Node) : bool :=
  isFunctionDeclaration n || isMethodDeclaration n ||
  isArrowFunction n || isFunctionExpression n.

End Ast.

(** ** JavaScript control effects: exceptions and mutable state *)

Module Js.

(** The exceptions that can reach the [catch] of [analyze]: the engine's
    call-stack overflow, a property read on [undefined], and the failures
    of the host calls ([fs] and the parser). *)
Inductive Error : Type :=
  | RangeError (message : string)
  | TypeError (message : string)
  | HostError (message : string).

Definition errorText (e : Error) : string :=
  match e with
  | RangeError m => "RangeError: " ++ m
  | TypeError m => "TypeError: " ++ m
  | HostError m => "Error: " ++ m
  end.

Inductive Outcome (A : Type) : Type :=
  | Return (a : A)
  | Throw (e : Error).
Arguments Return {A} a.
Arguments Throw {A} e.

(** A computation over a mutable state [S] that returns normally or
    throws.  State changes made before a throw persist, as in JavaScript. *)
Definition St (S A : Type) : Type := S -> Outcome A * S.

Definition ret {S A} (a : A) : St S A := fun s => (Return a, s).

Definition throw {S A} (e : Error) : St S A := fun s => (Throw e, s).

Definition bind {S A B} (m : St S A) (f : A -> St S B) : St S B :=
  fun s => match m s with
           | (Return a, s') => f a s'
           | (Throw e, s') => (Throw e, s')
           end.

Definition modify {S} (f : S -> S) : St S unit := fun s => (Return tt, f s).

Definition gets {S A} (f : S -> A) : St S A := fun s => (Return (f s), s).

(** A host call: it returns or throws, and changes no state of the script. *)
Definition lift {S A} (o : Outcome A) : St S A := fun s => (o, s).

(** [try { body } catch (error) { handler }] *)
Definition tryCatch {S A} (body : St S A) (handler : Error -> St S A) : St S A :=
  fun s => match body s with
           | (Return a, s') => (Return a, s')
           | (Throw e, s') => handler e s'
           end.

(** A block that declares a local variable initialised to [init], runs
    [body] (a closure that assigns to the variable) and returns the
    variable's final value: [let v = init; ...; return v]. *)
Definition withLocal {S T} (init : S) (body : St S unit) : St T S :=
  fun t => match body init with
           | (Return _, v) => (Return v, t)
           | (Throw e, _) => (Throw e, t)
           end.

Declare Scope js_scope.
Delimit Scope js_scope with js.
Notation "'let*' x ':=' m 'in' k" := (bind m (fun x => k))
  (at level 10, x name, m at level 100, k at level 200, only parsing) : js_scope.
Notation "m '>>' k" := (bind m (fun _ => k))
  (at level 90, right associativity, only parsing) : js_scope.

(** [for (const x of xs) body(x)], and [ts.forEachChild(node, cb)] for a
    callback that returns [undefined] (all callbacks of the script do, so
    the early exit of [forEachChild] on a truthy result never fires). *)
Fixpoint forOf {S A} (xs : list A) (body : A -> St S unit) : St S unit :=
  match xs with
  | [] => ret tt
  | x :: xs' => bind (body x) (fun _ => forOf xs' body)
  end.

Definition forEachChild {S} (node : Ast.Node) (cb : Ast.Node -> St S unit) : St S unit :=
  forOf (Ast.children node) cb.

(** [Array.prototype.sort(comparefn)], modelled from ECMAScript (2019 and
    later): the result is ordered by [comparefn] and the sort is stable.
    The algorithm is left to the engine; insertion from the right is one
    that meets the requirement.  [comparefn a b <= 0] keeps [a] first. *)
Fixpoint sort_insert {A} (comparefn : A -> A -> Z) (x : A) (l : list A) : list A :=
  match l with
  | [] => [x]
  | y :: l' => if comparefn x y <=? 0 then x :: y :: l'
               else y :: sort_insert comparefn x l'
  end.

Fixpoint Array_sort {A} (comparefn : A -> A -> Z) (l : list A) : list A :=
  match l with
  | [] => []
  | x :: l' => sort_insert comparefn x (Array_sort comparefn l')
  end.

(** [Math.max(...xs)] on a non-empty argument list. *)
Definition Math_max (x : Z) (xs : list Z) : Z := foldr Z.max x xs.

(** [s.startsWith(p)] and [s.endsWith(p)] *)
Definition startsWith (s p : string) : bool := String.prefix p s.
Definition endsWith (s p : string) : bool :=
  String.prefix (String.rev p) (String.rev s).

End Js.

(** ** The analyzer

    Every function of the script that recurses over the tree or the
    directory takes [stack], the number of nested calls the engine still
    allows, and throws the engine's [RangeError] when it is used up; that
    is the one exception the visit of a well-formed tree can raise.  One
    level of the tree is charged one unit, whatever the number of engine
    frames the level takes (the callback of [calculateMaxNesting] goes
    through one more closure than that of [calculateComplexity]), so
    [stack] is used as a bound that suffices, not as the exact height at
    which the engine gives up. *)

Module Analyzer.
Import Ast Js.
Local Open Scope js_scope.
Local Open Scope string_scope.

(** [interface FunctionComplexity] *)
Record FunctionComplexity : Type := mkFunctionComplexity {
  name : string;
  filePath : string;
  lineNumber : Z;
  cyclomaticComplexity : Z;
  linesOfCode : Z;
  maxNestingDepth : Z;
  parameterCount : Z
}.

(** What the script writes with [console.log] and [console.error].  Fixed
    lines are kept as text, lines that interpolate numbers as their
    template and the numbers; the table rows and the statistics keep the
    values they print, not their padding and rounding. *)
Inductive ConsoleLine : Type :=
  | LogLine (text : string)
  | ErrorLine (text : string)
  | RankedRow (rank : Z) (func : FunctionComplexity)
  | LogValues (template : string) (values : list Z)
  | Statistics (count sumComplexity sumLines maxComplexity : Z)
  | Distribution (simple moderate complexCount veryComplex : Z).

(** The mutable world of a run: the arrays of records, by reference, and
    the console.  Records are created once and never assigned to, so an
    array holds them by value. *)
Record Store : Type := mkStore {
  arrays : gmap nat (list FunctionComplexity);
  console : list ConsoleLine
}.

Definition emptyStore : Store := mkStore ∅ [].

Definition readArray (l : nat) (s : Store) : list FunctionComplexity :=
  default [] (arrays s !! l).

Definition writeArray (l : nat) (v : list FunctionComplexity) (s : Store) : Store :=
  mkStore (<[l := v]> (arrays s)) (console s).

(** An array literal / [new Array]: a fresh reference. *)
Definition newArray (v : list FunctionComplexity) : St Store nat :=
  fun s => let l := fresh (dom (arrays s)) in (Return l, writeArray l v s).

(** [arr.push(...items)] *)
Definition pushed (l : nat) (items : list FunctionComplexity) (s : Store) : Store :=
  writeArray l (readArray l s ++ items) s.

Definition push (l : nat) (items : list FunctionComplexity) : St Store unit :=
  modify (pushed l items).

Definition consoleWrite (line : ConsoleLine) : St Store unit :=
  modify (fun s => mkStore (arrays s) (console s ++ [line])).

(** [class ComplexityAnalyzer]: its one field, [functions], refers to an
    array allocated by the field initialiser and is never reassigned. *)
Record ComplexityAnalyzer : Type := mkComplexityAnalyzer {
  functions : nat
}.

Definition newComplexityAnalyzer : St Store ComplexityAnalyzer :=
  let* l := newArray [] in ret (mkComplexityAnalyzer l).

(** The host: Node's [fs] and [path] modules and the TypeScript parser. *)
Record Stats : Type := mkStats { isDirectory : bool }.

Record Host : Type := mkHost {
  readFileSync : string -> Outcome string;
  createSourceFile : string -> string -> Outcome SourceFile;
  readdirSync : string -> Outcome (list string);
  statSync : string -> Outcome Stats;
  path_join : string -> string -> string
}.

Definition stackOverflow : Error := RangeError "Maximum call stack size exceeded".

Definition anonymous : string := "(anonymous)".

(** [text || '(anonymous)'] where [text] is [node.name?.getText()] *)
Definition orAnonymous (text : option string) : string :=
  match text with
  | Some (String c t) => String c t
  | _ => anonymous
  end.

(** [getFunctionName]: declarations and methods use their own name;
    arrow functions and function expressions look at [node.parent], which
    is [undefined] only for the root of a tree. *)
Definition getFunctionName {S} (node : Node) (parent : option Node) : St S string :=
  if isFunctionDeclaration node || isMethodDeclaration node then
    ret (orAnonymous (nameText node))
  else
    match parent with
    | None => throw (TypeError "Cannot read properties of undefined (reading 'kind')")
    | Some parent =>
        match isVariableDeclaration parent, nameText parent with
        | true, Some text => ret text
        | _, _ =>
            match isPropertyAssignment parent, nameText parent with
            | true, Some text => ret text
            | _, _ => ret anonymous
            end
        end
    end.

(** The inner closure [visit] of [calculateComplexity]; the state is the
    captured variable [complexity].  [stack] is the number of nested calls
    the engine still allows. *)
Fixpoint calculateComplexity_visit (stack : nat) (n : Node) : St Z unit :=
  match stack with
  | O => throw stackOverflow
  | S stack' =>
      (if isIfStatement n || isConditionalExpression n || isWhileStatement n ||
          isDoStatement n || isForStatement n || isForInStatement n ||
          isForOfStatement n || isCaseClause n || isCatchClause n
       then modify Z.succ else ret tt) >>
      (if isBinaryExpression n then
         if isAmpersandAmpersand (operatorToken n) || isBarBar (operatorToken n)
         then modify Z.succ else ret tt
       else ret tt) >>
      forEachChild n (calculateComplexity_visit stack')
  end.

Definition calculateComplexity {S} (stack : nat) (node : Node) : St S Z :=
  withLocal 1 (forEachChild node (calculateComplexity_visit stack)).

Definition countLines (node : Node) (sourceFile : SourceFile) : Z :=
  let startLine := lineOfPosition sourceFile (getStart node) in
  let endLine := lineOfPosition sourceFile (getEnd node) in
  endLine - startLine + 1.

(** The inner closure [visit] of [calculateMaxNesting]; the state is the
    captured variable [maxDepth]. *)
Fixpoint calculateMaxNesting_visit (stack : nat) (n : Node) (currentDepth : Z)
  : St Z unit :=
  match stack with
  | O => throw stackOverflow
  | S stack' =>
      let nests :=
        isIfStatement n || isWhileStatement n || isDoStatement n ||
        isForStatement n || isForInStatement n || isForOfStatement n ||
        isTryStatement n || isSwitchStatement n in
      let newDepth := if nests then currentDepth + 1 else currentDepth in
      (if nests then modify (fun maxDepth => Z.max maxDepth newDepth) else ret tt) >>
      forEachChild n (fun child => calculateMaxNesting_visit stack' child newDepth)
  end.

Definition calculateMaxNesting {S} (stack : nat) (node : Node) (depth : Z) : St S Z :=
  withLocal depth
    (forEachChild node (fun child => calculateMaxNesting_visit stack child depth)).

Definition countParameters (node : Node) : Z := Z.of_nat (length (parameters node)).

Definition analyzeFunctionNode (stack : nat) (this : ComplexityAnalyzer)
    (sourceFile : SourceFile) (parent : option Node) (node : Node) : St Store unit :=
  let* name := getFunctionName node parent in
  let lineNumber := lineOfPosition sourceFile (getStart node) + 1 in
  let* complexity := calculateComplexity stack node in
  let lines := countLines node sourceFile in
  let* maxNesting := calculateMaxNesting stack node 0 in
  let params := countParameters node in
  push (functions this)
    [mkFunctionComplexity name (fileName sourceFile) lineNumber complexity lines
       maxNesting params].

Fixpoint visitNode (stack : nat) (this : ComplexityAnalyzer) (sourceFile : SourceFile)
    (parent : option Node) (node : Node) : St Store unit :=
  match stack with
  | O => throw stackOverflow
  | S stack' =>
      (if isFunctionLike node
       then analyzeFunctionNode stack' this sourceFile parent node
       else ret tt) >>
      forEachChild node (visitNode stack' this sourceFile (Some node))
  end.

(** The line the [catch] of [analyze] writes with [console.error]. *)
Definition analysisErrorLine (filePath : string) (error : Error) : ConsoleLine :=
  ErrorLine ("❌ 분석 오류: " ++ filePath ++ " - " ++ errorText error).

(** [analyze]: on success the accumulator itself is returned (the same
    reference on every call); the [catch] returns a new empty array. *)
Definition analyze (stack : nat) (host : Host) (this : ComplexityAnalyzer)
    (filePath : string) : St Store nat :=
  tryCatch
    (let* source := lift (readFileSync host filePath) in
     let* sourceFile := lift (createSourceFile host filePath source) in
     visitNode stack this sourceFile None (root sourceFile) >>
     ret (functions this))
    (fun error =>
       consoleWrite (analysisErrorLine filePath error) >>
       newArray []).

Definition getComplexityRating (complexity : Z) : string :=
  if (complexity <=? 10)%Z then "단순"
  else if (complexity <=? 20)%Z then "보통"
  else if (complexity <=? 50)%Z then "복잡"
  else "매우 복잡".

Definition analyzeFile (stack : nat) (host : Host) (filePath : string) : St Store nat :=
  let* analyzer := newComplexityAnalyzer in
  analyze stack host analyzer filePath.

Definition defaultExtensions : list string := [".ts"; ".tsx"; ".js"; ".jsx"].

(** The body of the [for] loop of [walk]; [walk] is the recursive call. *)
Definition walkEntry (walk : string -> St Store unit) (stack : nat) (host : Host)
    (extensions : list string) (allFunctions : nat) (dir file : string)
  : St Store unit :=
  let filePath := path_join host dir file in
  let* stat := lift (statSync host filePath) in
  if isDirectory stat then
    if negb (startsWith file ".") && negb (String.eqb file "node_modules")
       && negb (String.eqb file "dist")
    then walk filePath
    else ret tt
  else if existsb (fun ext => endsWith file ext) extensions then
    consoleWrite (LogLine ("분석 중: " ++ filePath)) >>
    let* functions := analyzeFile stack host filePath in
    let* items := gets (readArray functions) in
    push allFunctions items
  else ret tt.

Fixpoint walk (stack : nat) (host : Host) (extensions : list string)
    (allFunctions : nat) (dir : string) : St Store unit :=
  match stack with
  | O => throw stackOverflow
  | S stack' =>
      let* files := lift (readdirSync host dir) in
      forOf files
        (walkEntry (walk stack' host extensions allFunctions) stack' host
           extensions allFunctions dir)
  end.

Definition analyzeDirectory (stack : nat) (host : Host) (dirPath : string)
    (extensions : list string) : St Store nat :=
  let* allFunctions := newArray [] in
  walk stack host extensions allFunctions dirPath >>
  ret allFunctions.

(** The comparator handed to [functions.sort]. *)
Definition byComplexityDescending (a b : FunctionComplexity) : Z :=
  cyclomaticComplexity b - cyclomaticComplexity a.

(** The four tallies of the distribution block of [printSummary]. *)
Definition simple (functions : list FunctionComplexity) : Z :=
  Z.of_nat (length (List.filter (fun f => cyclomaticComplexity f <=? 10)%Z functions)).
Definition moderate (functions : list FunctionComplexity) : Z :=
  Z.of_nat (length (List.filter
    (fun f => (11 <=? cyclomaticComplexity f)%Z && (cyclomaticComplexity f <=? 20)%Z)
    functions)).
Definition complexCount (functions : list FunctionComplexity) : Z :=
  Z.of_nat (length (List.filter
    (fun f => (21 <=? cyclomaticComplexity f)%Z && (cyclomaticComplexity f <=? 50)%Z)
    functions)).
Definition veryComplex (functions : list FunctionComplexity) : Z :=
  Z.of_nat (length (List.filter (fun f => 50 <? cyclomaticComplexity f)%Z functions)).

Definition sumOf (f : FunctionComplexity -> Z) (functions : list FunctionComplexity) : Z :=
  foldl (fun sum x => sum + f x)%Z 0%Z functions.

(** [printSummary(functions, threshold)].  [functions] is the caller's
    array; [sort] reorders it in place and returns the same reference, so
    the statistics below the table read the reordered array.  Of the
    console output the model keeps the lines that carry values: rulers,
    column headings and the closing advice (which compares a tally with a
    floating-point product) are left out, and the averages are kept as the
    sums and the count they are computed from. *)
Definition printSummary (functions : nat) (threshold : Z) : St Store unit :=
  let* len := gets (fun s => length (readArray functions s)) in
  if Nat.eqb len 0 then consoleWrite (LogLine "분석할 함수가 없습니다.")
  else
    modify (fun s =>
      writeArray functions (Array_sort byComplexityDescending (readArray functions s)) s) >>
    let* sorted := gets (readArray functions) in
    let complex := List.filter (fun f => threshold <=? cyclomaticComplexity f)%Z sorted in
    consoleWrite (LogValues "복잡도 분석 결과 (임계값: ${threshold} 이상)" [threshold]) >>
    if Nat.eqb (length complex) 0 then
      consoleWrite (LogValues "✅ 모든 함수의 복잡도가 ${threshold} 미만입니다!" [threshold])
    else
      consoleWrite (LogValues "⚠️  복잡도 ${threshold} 이상 함수: ${complex.length}개"
                      [threshold; Z.of_nat (length complex)]) >>
      forOf (imap (fun i func => RankedRow (Z.of_nat i + 1) func) (take 10 complex))
        consoleWrite >>
      let* all := gets (readArray functions) in
      consoleWrite (Statistics (Z.of_nat (length all))
                      (sumOf cyclomaticComplexity all) (sumOf linesOfCode all)
                      (match map cyclomaticComplexity all with
                       | [] => 0%Z
                       | x :: xs => Math_max x xs
                       end)) >>
      consoleWrite (Distribution (simple all) (moderate all) (complexCount all)
                      (veryComplex all)).

End Analyzer.

(** ** The stated behaviour, in the words of the specification *)

Module Spec.
Import Ast Analyzer.

(** A decision point: an [if], a conditional expression, a loop, a [case]
    clause, a [catch] clause, or a binary expression with [&&] or [||]. *)
Definition isDecisionPoint (n : Node) : bool :=
  match kind n with
  | IfStatement | ConditionalExpression
  | WhileStatement | DoStatement | ForStatement | ForInStatement | ForOfStatement
  | CaseClause | CatchClause => true
  | BinaryExpression =>
      match operatorToken n with
      | AmpersandAmpersandToken | BarBarToken => true
      | _ => false
      end
  | _ => false
  end.

Definition decisionPoints (f : Node) : nat :=
  length (List.filter isDecisionPoint (descendants f)).

(** Decision points among [n] and its descendants. *)
Definition weight (n : Node) : Z :=
  Z.of_nat (length (List.filter isDecisionPoint (n :: descendants n))).

(** A nesting construct: [if], a loop, [try] or [switch]. *)
Definition isNesting (n : Node) : bool :=
  match kind n with
  | IfStatement
  | WhileStatement | DoStatement | ForStatement | ForInStatement | ForOfStatement
  | TryStatement | SwitchStatement => true
  | _ => false
  end.

(** The depth at the end of a path below [f]: the number of nesting
    constructs entered on the way, whatever else (function literals
    included) the path goes through. *)
Definition depthAlong (path : list Node) : Z :=
  Z.of_nat (length (List.filter isNesting path)).

Definition maxDepthBelow (f : Node) : Z :=
  foldr Z.max 0%Z (map depthAlong (pathsBelow f)).

(** The deepest point of a set of paths entered at depth [d]. *)
Definition deepest (d : Z) (paths : list (list Node)) : Z :=
  foldr Z.max d (map (fun p => d + depthAlong p)%Z paths).

(** The four complexity bands. *)
Inductive ComplexityBand : Type := Simple | Moderate | Complex | VeryComplex.

Definition bandLabel (b : ComplexityBand) : string :=
  match b with
  | Simple => "단순"
  | Moderate => "보통"
  | Complex => "복잡"
  | VeryComplex => "매우 복잡"
  end.

Definition inBand (b : ComplexityBand) (c : Z) : Prop :=
  match b with
  | Simple => (c <= 10)%Z
  | Moderate => (11 <= c <= 20)%Z
  | Complex => (21 <= c <= 50)%Z
  | VeryComplex => (51 <= c)%Z
  end.

Definition tally (b : ComplexityBand) (functions : list FunctionComplexity) : Z :=
  match b with
  | Simple => simple functions
  | Moderate => moderate functions
  | Complex => complexCount functions
  | VeryComplex => veryComplex functions
  end.

(** Function-like nodes below [n] in document order, each with its parent. *)
Fixpoint functionsBelow (n : Node) : list (Node * Node) :=
  match n with
  | mkNode _ _ _ _ _ _ cs =>
      flat_map (fun c =>
        (if isFunctionLike c then [(n, c)] else []) ++ functionsBelow c) cs
  end.

(** The display name as the code resolves it: a declaration or method
    shows its own name when that has text, an arrow function or function
    expression the name of the variable or property it is bound to. *)
Definition displayName (node parent : Node) : string :=
  if isFunctionDeclaration node || isMethodDeclaration node then
    match nameText node with
    | Some text => if String.eqb text "" then anonymous else text
    | None => anonymous
    end
  else
    match isVariableDeclaration parent, nameText parent with
    | true, Some variable => variable
    | _, _ =>
        match isPropertyAssignment parent, nameText parent with
        | true, Some property => property
        | _, _ => anonymous
        end
    end.

(** The display name as the four-step precedence states it: the node's
    own name first, whatever the node's kind. *)
Definition statedName (node parent : Node) : string :=
  match nameText node with
  | Some text => text
  | None =>
      if isVariableDeclaration parent then default anonymous (nameText parent)
      else if isPropertyAssignment parent then default anonymous (nameText parent)
      else anonymous
  end.

(** The record of a function-like node [node] whose parent is [parent]. *)
Definition recordFor (sourceFile : SourceFile) (at_ : Node * Node) : FunctionComplexity :=
  let '(parent, node) := at_ in
  mkFunctionComplexity
    (displayName node parent)
    (fileName sourceFile)
    (lineOfPosition sourceFile (getStart node) + 1)
    (1 + Z.of_nat (decisionPoints node))
    (lineOfPosition sourceFile (getEnd node)
       - lineOfPosition sourceFile (getStart node) + 1)
    (maxDepthBelow node)
    (Z.of_nat (length (parameters node))).

(** The records of a file: one per function-like node, in document order. *)
Definition fileRecords (sourceFile : SourceFile) : list FunctionComplexity :=
  map (recordFor sourceFile) (functionsBelow (root sourceFile)).

(** Reading or parsing [path] fails. *)
Definition loadFails (host : Host) (path : string) : Prop :=
  (exists e, readFileSync host path = Js.Throw e) \/
  (exists source e, readFileSync host path = Js.Return source /\
                    createSourceFile host path source = Js.Throw e).

(** [path] is read and parsed into [sourceFile], whose root is the
    [SourceFile] node and whose height fits the call stack. *)
Definition loads (stack : nat) (host : Host) (path : string) (sourceFile : SourceFile)
  : Prop :=
  (exists source, readFileSync host path = Js.Return source /\
                  createSourceFile host path source = Js.Return sourceFile) /\
  isFunctionLike (root sourceFile) = false /\
  (height (root sourceFile) <= stack)%nat.

(** The store the [catch] of [analyze] leaves when it is entered at [s]:
    one more console line and one more, empty, array. *)
Definition afterCatch (filePath : string) (e : Js.Error) (s : Store) : Store :=
  writeArray (fresh (dom (arrays s))) []
    (mkStore (arrays s) (console s ++ [analysisErrorLine filePath e])).

(** The stated propagation policy: an exception thrown while the tree is
    visited leaves [analyze] as that exception. *)
Definition visitErrorsPropagate : Prop :=
  forall (stack : nat) (host : Host) (this : ComplexityAnalyzer) (path source : string)
         (sourceFile : SourceFile) (e : Js.Error) (s s' : Store),
    readFileSync host path = Js.Return source ->
    createSourceFile host path source = Js.Return sourceFile ->
    visitNode stack this sourceFile None (root sourceFile) s = (Js.Throw e, s') ->
    fst (analyze stack host this path s) = Js.Throw e.

(** The accumulation as stated, for any second call: whatever the second
    file, the list the second call returns starts with everything the
    accumulator held after the first call. *)
Definition secondCallReturnsAccumulated : Prop :=
  forall (stack : nat) (host : Host) (this : ComplexityAnalyzer)
         (first second : string) (s : Store),
    is_Some (arrays s !! functions this) ->
    exists l s2,
      analyze stack host this second (snd (analyze stack host this first s))
        = (Js.Return l, s2) /\
      readArray (functions this) (snd (analyze stack host this first s))
        `prefix_of` readArray l s2.

(** The stated invariant of a record. *)
Definition recordInvariant (r : FunctionComplexity) : Prop :=
  (1 <= cyclomaticComplexity r)%Z /\ (1 <= linesOfCode r)%Z /\
  (0 <= maxNestingDepth r)%Z /\ (0 <= parameterCount r)%Z /\
  (1 <= lineNumber r)%Z /\ name r <> "".

(** What the parser guarantees about offsets and lines: lines are counted
    from 0 and grow with the offset, and a node ends no earlier than it
    starts. *)
Definition wellPositioned (sourceFile : SourceFile) : Prop :=
  (forall p, 0 <= lineOfPosition sourceFile p)%Z /\
  (forall p q, (p <= q)%Z ->
     (lineOfPosition sourceFile p <= lineOfPosition sourceFile q)%Z) /\
  Forall (fun n => (getStart n <= getEnd n)%Z) (descendants (root sourceFile)).

Definition descendingByComplexity (a b : FunctionComplexity) : Prop :=
  (cyclomaticComplexity b <= cyclomaticComplexity a)%Z.

End Spec.

(** ** Concrete programs *)

Module Examples.
Import Ast Js Analyzer Spec.
Local Open Scope string_scope.

Definition node (k : SyntaxKind) (cs : list Node) : Node :=
  mkNode k None OtherKind [] 0 0 cs.
Definition named (k : SyntaxKind) (text : string) (cs : list Node) : Node :=
  mkNode k (Some text) OtherKind [] 0 0 cs.
Definition ident (text : string) : Node := node Identifier [].
Definition binary (op : SyntaxKind) (l r : Node) : Node :=
  mkNode BinaryExpression None op [] 0 0 [l; node op []; r].
Definition param (text : string) : Node := named ParameterKind text [ident text].
Definition func (text : string) (ps : list Node) (body : list Node) : Node :=
  mkNode FunctionDeclaration (Some text) OtherKind ps 0 0
    (ident text :: ps ++ [node Block body]).
Definition returns (e : Node) : Node := node ReturnStatement [e].

(** [function f(a) { if (a) { return 1; } return 0; }] *)
Definition scenario1 : Node :=
  func "f" [param "a"]
    [node IfStatement [ident "a"; node Block [returns (node OtherKind [])]];
     returns (node OtherKind [])].

(** [function g(a,b) { if (a) { if (b) { return 1; } } return 0; }] *)
Definition scenario2 : Node :=
  func "g" [param "a"; param "b"]
    [node IfStatement [ident "a"; node Block
       [node IfStatement [ident "b"; node Block [returns (node OtherKind [])]]]];
     returns (node OtherKind [])].

(** [function h(x) { switch (x) { case 1: return 'a'; case 2: return 'b';
    case 3: return 'c'; } }] *)
Definition scenario3 : Node :=
  func "h" [param "x"]
    [node SwitchStatement [ident "x"; node CaseBlock
       [node CaseClause [node OtherKind []; returns (node OtherKind [])];
        node CaseClause [node OtherKind []; returns (node OtherKind [])];
        node CaseClause [node OtherKind []; returns (node OtherKind [])]]]].

(** [function i(a,b) { return a && b || false; }] *)
Definition scenario4 : Node :=
  func "i" [param "a"; param "b"]
    [returns (binary BarBarToken
                (binary AmpersandAmpersandToken (ident "a") (ident "b"))
                (node OtherKind []))].

(** [function outer() { try { if (a) { const k = () => { while (b) {} } } }
    catch (e) { } }]: an arrow function inside two nesting constructs. *)
Definition nestedArrow : Node :=
  mkNode ArrowFunction None OtherKind [] 0 0
    [node EqualsToken []; node Block [node WhileStatement [ident "b"; node Block []]]].
Definition scenarioNested : Node :=
  func "outer" []
    [node TryStatement
       [node Block [node IfStatement [ident "a"; node Block
          [named VariableDeclaration "k" [ident "k"; nestedArrow]]]];
        node CatchClause [named VariableDeclaration "e" [ident "e"]; node Block []]]].

(** [const x = function foo() {}] *)
Definition fooExpression : Node :=
  mkNode FunctionExpression (Some "foo") OtherKind [] 10 27
    [ident "foo"; node Block []].
Definition xDeclaration : Node :=
  mkNode VariableDeclaration (Some "x") OtherKind [] 6 27 [ident "x"; fooExpression].

(** [try {} catch (= () => 1) {}]: the parser recovers from the missing
    catch variable with an identifier whose text is empty, and keeps the
    initializer. *)
Definition recoveredArrow : Node :=
  mkNode ArrowFunction None OtherKind [] 16 23
    [node EqualsToken []; node OtherKind []].
Definition recoveredDeclaration : Node :=
  mkNode VariableDeclaration (Some "") OtherKind [] 14 23
    [mkNode Identifier None OtherKind [] 14 14 []; recoveredArrow].
Definition recoveredFile : SourceFile :=
  mkSourceFile "recovered.ts" (fun _ => 0%Z)
    (mkNode SourceFileKind None OtherKind [] 0 27
       [mkNode TryStatement None OtherKind [] 0 27
          [mkNode Block None OtherKind [] 4 6 [];
           mkNode CatchClause None OtherKind [] 7 27
             [recoveredDeclaration; mkNode Block None OtherKind [] 25 27 []]]]).

(** A file with one function, and a file nested deeper than the stack of
    the examples below allows. *)
Definition smallFile : SourceFile :=
  mkSourceFile "small.ts" (fun p => p / 10)%Z
    (mkNode SourceFileKind None OtherKind [] 0 45
       [mkNode FunctionDeclaration (Some "f") OtherKind [param "a"] 0 45
          [ident "f"; param "a";
           mkNode Block None OtherKind [] 14 45
             [mkNode IfStatement None OtherKind [] 16 35 [ident "a"; node Block []]]]]).

Definition otherFile : SourceFile :=
  mkSourceFile "other.ts" (fun p => p / 10)%Z
    (mkNode SourceFileKind None OtherKind [] 0 30
       [mkNode VariableDeclaration (Some "k") OtherKind [] 6 30
          [ident "k";
           mkNode ArrowFunction None OtherKind [param "p"; param "q"] 10 30
             [param "p"; param "q"; node EqualsToken [];
              binary AmpersandAmpersandToken (ident "p") (ident "q")]]]).

Definition deepFile : SourceFile :=
  mkSourceFile "deep.ts" (fun _ => 0%Z)
    (node SourceFileKind
       [func "first" [] [];
        func "second" []
          [returns (binary PlusToken (binary PlusToken (binary PlusToken
             (ident "a") (ident "a")) (ident "a")) (ident "a"))]]).

(** A host with three readable files, one that cannot be read and one
    that cannot be parsed, all in the directory [src]. *)
Definition exampleHost : Host :=
  mkHost
    (fun path =>
       if String.eqb path "src/small.ts" then Return "small"
       else if String.eqb path "src/other.ts" then Return "other"
       else if String.eqb path "src/deep.ts" then Return "deep"
       else if String.eqb path "src/recovered.ts" then Return "recovered"
       else if String.eqb path "src/broken.ts" then Return "broken"
       else Throw (HostError "ENOENT: no such file or directory"))
    (fun _ source =>
       if String.eqb source "small" then Return smallFile
       else if String.eqb source "other" then Return otherFile
       else if String.eqb source "deep" then Return deepFile
       else if String.eqb source "recovered" then Return recoveredFile
       else Throw (HostError "Debug Failure."))
    (fun dir =>
       if String.eqb dir "src"
       then Return ["gone.ts"; "small.ts"; "broken.ts"; "other.ts"; "notes.md"]
       else Throw (HostError "ENOTDIR: not a directory"))
    (fun _ => Return (mkStats false))
    (fun dir file => dir ++ "/" ++ file).

Definition exampleAnalyzer : ComplexityAnalyzer := mkComplexityAnalyzer 0.

Definition exampleStore : Store := mkStore {[ 0%nat := [] ]} [].

Definition rec (text : string) (complexity : Z) : FunctionComplexity :=
  mkFunctionComplexity text "a.ts" 1 complexity 1 0 0.

Definition unranked : list FunctionComplexity :=
  [rec "a" 3; rec "b" 12; rec "c" 3; rec "d" 51; rec "e" 12; rec "f" 1].

End Examples.

(** ** The command line *)

Module Cli.
Import Ast Js Analyzer.
Local Open Scope js_scope.
Local Open Scope string_scope.

(** What [main] needs beyond the analyzer's host: [fs.existsSync],
    [fs.statSync(path).isFile()] and [parseInt(text, 10)], whose [NaN] is
    [None]. *)
Record Process : Type := mkProcess {
  fsHost : Host;
  existsSync : string -> bool;
  isFile : string -> bool;
  parseInt : string -> option Z
}.

(** How [main] ends: by [process.exit(code)] or by running to its end.
    An exception nobody catches is the [Throw] of the computation. *)
Inductive Completion : Type :=
  | Exited (code : Z)
  | Finished.

(** [args.indexOf(x)]; [None] is [-1]. *)
Fixpoint indexOf (x : string) (args : list string) : option nat :=
  match args with
  | [] => None
  | y :: rest => if String.eqb y x then Some 0%nat else option_map S (indexOf x rest)
  end.

(** [text.match(/\.(ts|tsx|js|jsx)$/)] as a truth value: somewhere in the
    text there is a dot followed by one of the four alternatives and then
    the end of the text. *)
Fixpoint matchesScriptExtension (text : string) : bool :=
  match text with
  | EmptyString => false
  | String c rest =>
      (String.eqb (String c EmptyString) "." &&
       (String.eqb rest "ts" || String.eqb rest "tsx" ||
        String.eqb rest "js" || String.eqb rest "jsx"))
      || matchesScriptExtension rest
  end.

(** The value that follows [--threshold], when the flag is present and the
    argument after it is a non-empty string ([args[thresholdIndex + 1]] is
    truthy). *)
Definition thresholdArgument (args : list string) : option string :=
  match indexOf "--threshold" args with
  | Some thresholdIndex =>
      match args !! (thresholdIndex + 1)%nat with
      | Some (String c t) => Some (String c t)
      | _ => None
      end
  | None => None
  end.

Definition usage : string :=
  "사용법: ts-node analyze-complexity.ts <file-or-directory-path> [--threshold N]".

(** [main], with [process.argv.slice(2)] as [args]. *)
Definition main (stack : nat) (proc : Process) (args : list string)
  : St Store Completion :=
  match args with
  | [] => consoleWrite (LogLine usage) >> ret (Exited 1)
  | targetPath :: _ =>
      match
        match thresholdArgument args with
        | Some text => parseInt proc text
        | None => Some 10%Z
        end
      with
      | None =>
          consoleWrite (ErrorLine "❌ 임계값은 숫자여야 합니다.") >> ret (Exited 1)
      | Some threshold =>
          if negb (existsSync proc targetPath) then
            consoleWrite (ErrorLine ("❌ 경로를 찾을 수 없습니다: " ++ targetPath)) >>
            ret (Exited 1)
          else
            let* initial := newArray [] in
            let* stat := lift (statSync (fsHost proc) targetPath) in
            if isFile proc targetPath then
              if matchesScriptExtension targetPath then
                let* functions := analyzeFile stack (fsHost proc) targetPath in
                printSummary functions threshold >> ret Finished
              else
                consoleWrite (ErrorLine
                  "❌ TypeScript/JavaScript 파일만 지원합니다 (.ts, .tsx, .js, .jsx)") >>
                ret (Exited 1)
            else if isDirectory stat then
              let* functions :=
                analyzeDirectory stack (fsHost proc) targetPath defaultExtensions in
              printSummary functions threshold >> ret Finished
            else
              consoleWrite (ErrorLine ("❌ 유효하지 않은 경로: " ++ targetPath)) >>
              ret (Exited 1)
      end
  end.

End Cli.

(** ** What a directory contributes *)

Module WalkSpec.
Import Ast Js Analyzer Spec.

(** The directories [walk] does not enter. *)
Definition excluded (file : string) : bool :=
  startsWith file "." || String.eqb file "node_modules" || String.eqb file "dist".

(** The records of one entry [file] of [dir], given what a subdirectory
    contributes ([below]): a directory contributes what is below it unless
    it is excluded; a file with one of the extensions contributes its
    records when it loads and nothing when reading or parsing fails; any
    other entry contributes nothing. *)
Definition entryRecords (below : string -> list FunctionComplexity -> Prop)
    (stack : nat) (host : Host) (extensions : list string) (dir file : string)
    (records : list FunctionComplexity) : Prop :=
  exists stat,
    statSync host (path_join host dir file) = Js.Return stat /\
    if isDirectory stat then
      if excluded file then records = []
      else below (path_join host dir file) records
    else if existsb (fun ext => endsWith file ext) extensions then
      (loadFails host (path_join host dir file) /\ records = []) \/
      (exists sourceFile,
         loads stack host (path_join host dir file) sourceFile /\
         records = fileRecords sourceFile)
    else records = [].

(** The records of a directory tree that is listed within [stack] nested
    calls: the contributions of its entries, in listing order. *)
Fixpoint dirRecords (stack : nat) (host : Host) (extensions : list string)
    (dir : string) (records : list FunctionComplexity) : Prop :=
  match stack with
  | O => False
  | S stack' =>
      exists files contributions,
        readdirSync host dir = Js.Return files /\
        Forall2 (entryRecords (dirRecords stack' host extensions) stack' host
                   extensions dir) files contributions /\
        records = concat contributions
  end.

(** Going from [s] to [s'], the array [l] has gained [records] at its end
    and every other array that existed is unchanged. *)
Definition grows (l : nat) (records : list FunctionComplexity) (s s' : Store) : Prop :=
  readArray l s' = readArray l s ++ records /\
  is_Some (arrays s' !! l) /\
  forall l', is_Some (arrays s !! l') -> l' <> l -> arrays s' !! l' = arrays s !! l'.

(** The rows of the table: the first ten of the ranked functions at or
    above the threshold. *)
Definition ranked (functions : list FunctionComplexity) : list FunctionComplexity :=
  Array_sort byComplexityDescending functions.

Definition atOrAbove (threshold : Z) (functions : list FunctionComplexity)
  : list FunctionComplexity :=
  List.filter (fun f => threshold <=? cyclomaticComplexity f)%Z functions.

(** What a call of [printSummary] at [s] adds to the console. *)
Definition printed (functions : nat) (threshold : Z) (s : Store) : list ConsoleLine :=
  drop (length (console s)) (console (snd (printSummary functions threshold s))).

(** The table rows among some console lines, as rank and function. *)
Definition rowsOf (lines : list ConsoleLine) : list (Z * FunctionComplexity) :=
  omap (fun line => match line with
                    | RankedRow rank func => Some (rank, func)
                    | _ => None
                    end) lines.

(** The statistics and distribution lines among some console lines. *)
Definition figuresOf (lines : list ConsoleLine) : list ConsoleLine :=
  List.filter (fun line => match line with
                           | Statistics _ _ _ _ | Distribution _ _ _ _ => true
                           | _ => false
                           end) lines.

End WalkSpec.

(** ** More concrete programs *)

Module MoreExamples.
Import Ast Js Analyzer Spec Examples Cli.
Local Open Scope string_scope.

(** A project tree:
    [proj/node_modules/], [proj/.git/], [proj/lib/other.ts],
    [proj/lib/dist/], [proj/small.ts], [proj/README.md]; and a directory
    [bad] whose entry [ghost.ts] cannot be stat'ed. *)
(** A file of five lines of twenty characters with a method and, inside
    it, a function expression bound to an object property. *)
Definition linedFile : SourceFile :=
  mkSourceFile "lined.ts" (fun p => Z.max 0 p / 20)%Z
    (mkNode SourceFileKind None OtherKind [] 0 100
       [mkNode MethodDeclaration (Some "run") OtherKind [param "x"; param "y"] 5 95
          [ident "run"; param "x"; param "y";
           mkNode Block None OtherKind [] 20 95
             [mkNode PropertyAssignment (Some "handler") OtherKind [] 42 78
                [ident "handler";
                 mkNode FunctionExpression (Some "inner") OtherKind [param "e"] 52 78
                   [ident "inner"; param "e";
                    mkNode Block None OtherKind [] 60 78
                      [mkNode ForOfStatement None OtherKind [] 62 76
                         [ident "e"; node Block []]]]]]]]).

Definition treeHost : Host :=
  mkHost
    (fun path =>
       if String.eqb path "proj/small.ts" then Return "small"
       else if String.eqb path "proj/lined.ts" then Return "lined"
       else if String.eqb path "proj/lib/other.ts" then Return "other"
       else if String.eqb path "bad/small.ts" then Return "small"
       else if String.eqb path "bad/other.ts" then Return "other"
       else Return "recovered")
    (fun _ source =>
       if String.eqb source "small" then Return smallFile
       else if String.eqb source "other" then Return otherFile
       else if String.eqb source "lined" then Return linedFile
       else if String.eqb source "recovered" then Return recoveredFile
       else Throw (HostError "Debug Failure."))
    (fun dir =>
       if String.eqb dir "proj"
       then Return ["node_modules"; ".git"; "lib"; "small.ts"; "README.md"]
       else if String.eqb dir "proj/lib" then Return ["other.ts"; "dist"]
       else if String.eqb dir "bad" then Return ["small.ts"; "ghost.ts"; "other.ts"]
       else if String.eqb dir "locked" then Throw (HostError "EACCES: permission denied")
       else Return ["index.js"])
    (fun path =>
       if String.eqb path "bad/ghost.ts"
       then Throw (HostError "ENOENT: no such file or directory")
       else Return (mkStats
         (String.eqb path "proj" || String.eqb path "proj/node_modules" ||
          String.eqb path "proj/.git" || String.eqb path "proj/lib" ||
          String.eqb path "proj/lib/dist" || String.eqb path "bad" ||
          String.eqb path "locked")))
    (fun dir file => dir ++ "/" ++ file).

Definition treeProcess : Process :=
  mkProcess treeHost
    (fun path => negb (String.eqb path "nowhere.ts"))
    (fun path => String.eqb path "proj/small.ts" || String.eqb path "proj/README.md")
    (fun text =>
       if String.eqb text "15" then Some 15%Z
       else if String.eqb text "2" then Some 2%Z
       else None).

(** [function outer() { if (a) { const inner = () => { if (b) {} } } }] *)
Definition innerArrow : Node :=
  mkNode ArrowFunction None OtherKind [] 0 0
    [node EqualsToken [];
     node Block [node IfStatement [ident "b"; node Block []]]].
Definition outerFunction : Node :=
  func "outer" []
    [node IfStatement [ident "a"; node Block
       [named VariableDeclaration "inner" [ident "inner"; innerArrow]]]].

Definition twelve : list FunctionComplexity :=
  map (fun c => rec "f" c) [3; 30; 12; 11; 25; 40; 15; 10; 22; 18; 50; 13; 14; 16]%Z.

End MoreExamples.

(** * Properties *)

Import Ast Js Analyzer Spec Examples Cli WalkSpec MoreExamples.
Local Open Scope js_scope.

(** ** Trees *)

Lemma height_child (n c : Node) : In c (children n) -> (height c < height n)%nat.
Proof.
  destruct n as [k nm op ps s e cs]; simpl.
  induction cs as [|x xs IH]; simpl; [tauto|].
  intros [->|Hin]; [lia|]. specialize (IH Hin). lia.
Qed.

Lemma height_children (n : Node) (k : nat) :
  (height n <= S k)%nat -> Forall (fun c => (height c <= k)%nat) (children n).
Proof.
  intros H. apply List.Forall_forall. intros c Hc.
  apply height_child in Hc. lia.
Qed.

Lemma descendants_eq (n : Node) :
  descendants n = flat_map (fun c => c :: descendants c) (children n).
Proof. destruct n; reflexivity. Qed.

Lemma pathsBelow_eq (n : Node) :
  pathsBelow n = flat_map (fun c => [c] :: map (cons c) (pathsBelow c)) (children n).
Proof. destruct n; reflexivity. Qed.

(** ** Cyclomatic complexity *)

Lemma calculateComplexity_visit_spec (stack : nat) :
  forall (n : Node) (complexity : Z),
    (height n <= stack)%nat ->
    calculateComplexity_visit stack n complexity = (Return tt, complexity + weight n).
Proof.
  induction stack as [|stack IH]; intros n c Hh.
  { destruct n; simpl in Hh; lia. }
  assert (Hcs : forall cs c0, Forall (fun x => (height x <= stack)%nat) cs ->
            forOf cs (calculateComplexity_visit stack) c0 =
            (Return tt, c0 + Z.of_nat (length (List.filter isDecisionPoint
                                 (flat_map (fun x => x :: descendants x) cs))))).
  { induction cs as [|x xs IHxs]; intros c0 Hall; cbn [forOf flat_map].
    - unfold ret. f_equal. simpl. lia.
    - inversion Hall as [|? ? Hx Hxs]; subst.
      unfold bind. rewrite (IH x c0 Hx). rewrite (IHxs _ Hxs).
      f_equal. unfold weight.
      rewrite List.filter_app, List.length_app. lia. }
  pose proof (height_children n stack Hh) as Hall.
  cbn [calculateComplexity_visit]. unfold forEachChild, bind.
  unfold weight. rewrite (descendants_eq n). cbn [List.filter].
  set (d := flat_map _ _) in *.
  destruct n as [k nm op ps st en cs]; cbn [children] in *.
  destruct k; cbn;
    try (rewrite (Hcs cs _ Hall); fold d; f_equal; simpl; lia).
  destruct op; cbn; rewrite (Hcs cs _ Hall); fold d; f_equal; simpl; lia.
Qed.

Lemma calculateComplexity_spec {T} (stack : nat) (f : Node) (s : T) :
  (height f <= S stack)%nat ->
  calculateComplexity stack f s = (Return (1 + Z.of_nat (decisionPoints f)), s).
Proof.
  intros Hh. pose proof (height_children f stack Hh) as Hall.
  unfold calculateComplexity, withLocal, forEachChild, decisionPoints.
  rewrite (descendants_eq f).
  generalize 1. induction Hall as [|x xs Hx Hxs IH]; intros c; cbn [forOf flat_map].
  - unfold ret. simpl. do 2 f_equal. lia.
  - unfold bind. rewrite (calculateComplexity_visit_spec stack x c Hx).
    specialize (IH (c + weight x)).
    destruct (forOf xs _ _) as [[[]|e] c']; [|discriminate].
    injection IH as ->. do 2 f_equal. unfold weight.
    rewrite List.filter_app, List.length_app. lia.
Qed.

(** C1.  With enough call stack for the height of its subtree, the
    cyclomatic complexity computed for a node [f] is 1 plus the number of
    its descendants (bodies of nested functions included) that are an
    [if], a conditional expression, a [while], [do], [for], [for-in] or
    [for-of] statement, a [case] clause, a [catch] clause, or a binary
    expression with [&&] or [||]; a [switch] statement node is not among
    the counted nodes. *)
Theorem calculateComplexity_counts_decision_points
    (stack : nat) (f : Node) (s : Store) :
  (height f <= S stack)%nat ->
  calculateComplexity stack f s =
    (Return (1 + Z.of_nat (length (List.filter isDecisionPoint (descendants f)))), s)
  /\ Forall (fun n => isSwitchStatement n = true -> isDecisionPoint n = false)
       (descendants f).
Proof.
  intros Hh. split; [exact (calculateComplexity_spec stack f s Hh)|].
  apply List.Forall_forall. intros [k nm op ps st en cs] _.
  unfold isSwitchStatement, isDecisionPoint; cbn [kind].
  destruct k; congruence.
Qed.

(** ** Nesting depth *)

Lemma deepest_ge (d : Z) (paths : list (list Node)) : d <= deepest d paths.
Proof. unfold deepest. induction paths; simpl; lia. Qed.

Lemma deepest_app (d : Z) (ps qs : list (list Node)) :
  deepest d (ps ++ qs) = Z.max (deepest d ps) (deepest d qs).
Proof.
  pose proof (deepest_ge d qs) as Hq. unfold deepest in *.
  induction ps as [|p ps IH]; simpl; [lia|]. rewrite map_app in *. lia.
Qed.

Lemma deepest_cons (d : Z) (n : Node) (ps : list (list Node)) :
  deepest d ([n] :: map (cons n) ps) = deepest (d + depthAlong [n]) ps.
Proof.
  unfold deepest. cbn [map foldr].
  assert (H0 : 0 <= depthAlong [n]) by (unfold depthAlong; lia).
  induction ps as [|p ps IH]; cbn [map foldr]; [lia|].
  assert (Hp : depthAlong (n :: p) = depthAlong [n] + depthAlong p).
  { unfold depthAlong. simpl. destruct (isNesting n); simpl; lia. }
  rewrite Hp. lia.
Qed.

Lemma calculateMaxNesting_visit_spec (stack : nat) :
  forall (n : Node) (currentDepth maxDepth : Z),
    (height n <= stack)%nat -> currentDepth <= maxDepth ->
    calculateMaxNesting_visit stack n currentDepth maxDepth =
      (Return tt,
       Z.max maxDepth (deepest currentDepth ([n] :: map (cons n) (pathsBelow n)))).
Proof.
  induction stack as [|stack IH]; intros n d m Hh Hdm.
  { destruct n; simpl in Hh; lia. }
  assert (Hcs : forall cs d' m0, d' <= m0 ->
            Forall (fun x => (height x <= stack)%nat) cs ->
            forOf cs (fun c => calculateMaxNesting_visit stack c d') m0 =
            (Return tt,
             Z.max m0 (deepest d'
               (flat_map (fun c => [c] :: map (cons c) (pathsBelow c)) cs)))).
  { induction cs as [|x xs IHxs]; intros d' m0 Hle Hall; cbn [forOf flat_map].
    - unfold ret, deepest. simpl. f_equal. lia.
    - inversion Hall as [|? ? Hx Hxs]; subst.
      unfold bind. rewrite (IH x d' m0 Hx Hle).
      rewrite IHxs by (try assumption; lia).
      f_equal. change (([x] :: map (cons x) (pathsBelow x)) ++ ?r)
        with (([x] :: map (cons x) (pathsBelow x)) ++ r).
      rewrite (deepest_app d' ([x] :: map (cons x) (pathsBelow x))). lia. }
  pose proof (height_children n stack Hh) as Hall.
  rewrite deepest_cons, (pathsBelow_eq n).
  cbn [calculateMaxNesting_visit]. unfold forEachChild, bind.
  set (nests := (isIfStatement n || isWhileStatement n || isDoStatement n ||
                 isForStatement n || isForInStatement n || isForOfStatement n ||
                 isTryStatement n || isSwitchStatement n)%bool).
  assert (Hn : depthAlong [n] = if nests then 1 else 0).
  { subst nests. unfold depthAlong, isNesting, isIfStatement, isWhileStatement,
      isDoStatement, isForStatement, isForInStatement, isForOfStatement,
      isTryStatement, isSwitchStatement. cbn [List.filter].
    destruct (kind n); reflexivity. }
  rewrite Hn. pose proof (deepest_ge (d + (if nests then 1 else 0))
    (flat_map (fun c => [c] :: map (cons c) (pathsBelow c)) (children n))) as Hge.
  destruct nests; cbn.
  - rewrite Hcs by (try assumption; lia). f_equal. lia.
  - replace (d + 0) with d in * by lia.
    rewrite Hcs by (try assumption; lia). f_equal.
Qed.

Lemma calculateMaxNesting_spec {T} (stack : nat) (f : Node) (s : T) :
  (height f <= S stack)%nat ->
  calculateMaxNesting stack f 0 s = (Return (maxDepthBelow f), s).
Proof.
  intros Hh. pose proof (height_children f stack Hh) as Hall.
  unfold calculateMaxNesting, withLocal, forEachChild, maxDepthBelow.
  rewrite (pathsBelow_eq f).
  change (foldr Z.max 0 (map depthAlong ?ps)) with (deepest 0 ps).
  assert (Hgen : forall m, 0 <= m ->
    forOf (children f) (fun child => calculateMaxNesting_visit stack child 0) m =
    (Return tt, Z.max m (deepest 0
       (flat_map (fun c => [c] :: map (cons c) (pathsBelow c)) (children f))))).
  { induction Hall as [|x xs Hx Hxs IH]; intros m Hm; cbn [forOf flat_map].
    - unfold ret, deepest. simpl. f_equal. lia.
    - unfold bind. rewrite (calculateMaxNesting_visit_spec stack x 0 m Hx Hm).
      rewrite IH by lia. f_equal.
      rewrite (deepest_app 0 ([x] :: map (cons x) (pathsBelow x))). lia. }
  rewrite (Hgen 0) by lia. do 2 f_equal.
  pose proof (deepest_ge 0 (flat_map (fun c => [c] :: map (cons c) (pathsBelow c))
                              (children f))). lia.
Qed.

(** C2.  With enough call stack for the height of its subtree, the
    maximum nesting depth computed for a node [f] is the largest depth
    reached on any path below [f], where the body starts at depth 0 and the
    depth grows by one at each [if], [while], [do], [for], [for-in],
    [for-of], [try] and [switch] node on the path and at no other node: not
    at a [case], [default] or [catch] clause, not at a block, and not at a
    function literal, below which the count simply continues. *)
Theorem calculateMaxNesting_is_deepest_path
    (stack : nat) (f : Node) (s : Store) :
  (height f <= S stack)%nat ->
  calculateMaxNesting stack f 0 s =
    (Return (foldr Z.max 0 (map depthAlong (pathsBelow f))), s)
  /\ (forall path n, depthAlong (path ++ [n]) =
         depthAlong path +
         (if isIfStatement n || isWhileStatement n || isDoStatement n ||
             isForStatement n || isForInStatement n || isForOfStatement n ||
             isTryStatement n || isSwitchStatement n then 1 else 0))
  /\ (forall n, isFunctionLike n || isCaseClause n || isCatchClause n = true ->
         depthAlong [n] = 0).
Proof.
  intros Hh. split; [exact (calculateMaxNesting_spec stack f s Hh)|]. split.
  - intros path n. unfold depthAlong. rewrite List.filter_app, List.length_app.
    cbn [List.filter]. unfold isNesting, isIfStatement, isWhileStatement,
      isDoStatement, isForStatement, isForInStatement, isForOfStatement,
      isTryStatement, isSwitchStatement.
    destruct (kind n); simpl; lia.
  - intros n. unfold depthAlong, isNesting, isFunctionLike, isFunctionDeclaration,
      isMethodDeclaration, isArrowFunction, isFunctionExpression, isCaseClause,
      isCatchClause. cbn [List.filter].
    destruct (kind n); simpl; intros H; try reflexivity; discriminate H.
Qed.

Lemma calculateMaxNesting_is_deepest_path_witness :
  (height scenarioNested <= 12)%nat /\
  calculateMaxNesting 11 scenarioNested 0 emptyStore = (Return 3, emptyStore).
Proof.
  assert (H : (height scenarioNested <= 12)%nat) by (vm_compute; lia).
  split; [exact H|].
  exact (proj1 (calculateMaxNesting_is_deepest_path 11 scenarioNested emptyStore H)).
Defined.

Lemma calculateComplexity_counts_decision_points_witness :
  (height scenario3 <= 10)%nat /\
  calculateComplexity 9 scenario3 emptyStore = (Return 4, emptyStore).
Proof.
  assert (H : (height scenario3 <= 10)%nat) by (vm_compute; lia).
  split; [exact H|].
  exact (proj1 (calculateComplexity_counts_decision_points 9 scenario3 emptyStore H)).
Defined.

(** The scenarios of the specification, run on the code. *)
Example scenario1_metrics :
  calculateComplexity 20 scenario1 tt = (Return 2, tt) /\
  calculateMaxNesting 20 scenario1 0 tt = (Return 1, tt) /\
  countParameters scenario1 = 1.
Proof. repeat split; reflexivity. Qed.

Example scenario2_metrics :
  calculateComplexity 20 scenario2 tt = (Return 3, tt) /\
  calculateMaxNesting 20 scenario2 0 tt = (Return 2, tt).
Proof. repeat split; reflexivity. Qed.

Example scenario3_metrics :
  calculateComplexity 20 scenario3 tt = (Return 4, tt) /\
  calculateMaxNesting 20 scenario3 0 tt = (Return 1, tt).
Proof. repeat split; reflexivity. Qed.

Example scenario4_metrics :
  calculateComplexity 20 scenario4 tt = (Return 3, tt) /\
  calculateMaxNesting 20 scenario4 0 tt = (Return 0, tt).
Proof. repeat split; reflexivity. Qed.

(** The stack bound is needed: on a tree deeper than the stack the
    calculator throws. *)
Example calculateComplexity_overflow :
  calculateComplexity 2 scenario1 tt = (Throw stackOverflow, tt).
Proof. reflexivity. Qed.

(** ** Display names *)

Lemma getFunctionName_displayName {T} (node parent : Node) (s : T) :
  getFunctionName node (Some parent) s = (Return (displayName node parent), s).
Proof.
  unfold getFunctionName, displayName, orAnonymous.
  destruct (isFunctionDeclaration node || isMethodDeclaration node).
  - destruct (nameText node) as [[|c t]|]; reflexivity.
  - destruct (isVariableDeclaration parent), (isPropertyAssignment parent),
      (nameText parent); reflexivity.
Qed.

(** C3, as the code has it.  A function declaration or method is shown
    under its own name when that name is present and has text, and as
    "(anonymous)" otherwise.  An arrow function or function expression is
    shown under the name of the variable declaration it is the child of,
    else under the name of the property assignment it is the child of,
    else as "(anonymous)"; the name a function expression declares for
    itself is not consulted. *)
Theorem getFunctionName_precedence (node parent : Node) (s : Store) :
  isFunctionLike node = true ->
  exists text,
    getFunctionName node (Some parent) s = (Return text, s) /\
    if isFunctionDeclaration node || isMethodDeclaration node then
      (forall own, nameText node = Some own -> own <> ""%string -> text = own) /\
      (nameText node = None \/ nameText node = Some ""%string -> text = anonymous)
    else
      (isArrowFunction node || isFunctionExpression node = true) /\
      (forall variable, isVariableDeclaration parent = true ->
         nameText parent = Some variable -> text = variable) /\
      (forall property, isVariableDeclaration parent = false ->
         isPropertyAssignment parent = true ->
         nameText parent = Some property -> text = property) /\
      (isVariableDeclaration parent = false ->
       isPropertyAssignment parent = false -> text = anonymous).
Proof.
  intros Hf. exists (displayName node parent).
  split; [apply getFunctionName_displayName|].
  unfold displayName, isFunctionLike in *.
  destruct (isFunctionDeclaration node || isMethodDeclaration node) eqn:Hd.
  - split.
    + intros own -> Hne. destruct own; [congruence|reflexivity].
    + intros [->| ->]; reflexivity.
  - split; [exact Hf|].
    repeat split.
    + intros v -> ->. reflexivity.
    + intros q -> -> ->. reflexivity.
    + intros -> ->. destruct (nameText parent); reflexivity.
Qed.

Lemma getFunctionName_precedence_witness :
  isFunctionLike fooExpression = true /\
  getFunctionName fooExpression (Some xDeclaration) emptyStore
    = (Return "x"%string, emptyStore).
Proof.
  assert (H : isFunctionLike fooExpression = true) by reflexivity.
  split; [exact H|].
  destruct (getFunctionName_precedence fooExpression xDeclaration emptyStore H)
    as [text [Hrun Hcases]].
  cbn in Hcases. destruct Hcases as [_ [Hvar _]].
  rewrite Hrun, (Hvar "x"%string eq_refl eq_refl). reflexivity.
Defined.

(** C3 as stated fails for a named function expression bound to a
    variable: [const x = function foo() {}] is recorded as [x], where the
    stated precedence gives [foo]. *)
Lemma named_function_expression_takes_variable_name :
  isFunctionLike fooExpression = true /\
  statedName fooExpression xDeclaration = "foo"%string /\
  getFunctionName fooExpression (Some xDeclaration) emptyStore
    = (Return "x"%string, emptyStore) /\
  getFunctionName fooExpression (Some xDeclaration) emptyStore
    <> (Return (statedName fooExpression xDeclaration), emptyStore).
Proof. repeat split; try reflexivity. discriminate. Qed.

(** ** Bands *)

Lemma tallies_partition (functions : list FunctionComplexity) :
  simple functions + moderate functions + complexCount functions
    + veryComplex functions = Z.of_nat (length functions).
Proof.
  unfold simple, moderate, complexCount, veryComplex.
  induction functions as [|f fs IH]; [reflexivity|].
  cbn [List.filter length].
  destruct (Z.leb_spec (cyclomaticComplexity f) 10),
           (Z.leb_spec 11 (cyclomaticComplexity f)),
           (Z.leb_spec (cyclomaticComplexity f) 20),
           (Z.leb_spec 21 (cyclomaticComplexity f)),
           (Z.leb_spec (cyclomaticComplexity f) 50),
           (Z.ltb_spec 50 (cyclomaticComplexity f));
    cbn [andb length]; lia.
Qed.

Lemma getComplexityRating_band (c : Z) (b : ComplexityBand) :
  getComplexityRating c = bandLabel b <-> inBand b c.
Proof.
  unfold getComplexityRating.
  destruct (Z.leb_spec c 10), (Z.leb_spec c 20), (Z.leb_spec c 50);
    destruct b; cbn [bandLabel inBand]; split; intros Hb;
    try reflexivity; try lia; try discriminate Hb.
Qed.

Lemma tally_counts_band (b : ComplexityBand) (functions : list FunctionComplexity) :
  tally b functions =
  Z.of_nat (length (List.filter
    (fun f => String.eqb (getComplexityRating (cyclomaticComplexity f)) (bandLabel b))
    functions)).
Proof.
  unfold tally, simple, moderate, complexCount, veryComplex, getComplexityRating.
  destruct b; do 2 f_equal; apply List.filter_ext; intros f;
    destruct (Z.leb_spec (cyclomaticComplexity f) 10),
             (Z.leb_spec 11 (cyclomaticComplexity f)),
             (Z.leb_spec (cyclomaticComplexity f) 20),
             (Z.leb_spec 21 (cyclomaticComplexity f)),
             (Z.leb_spec (cyclomaticComplexity f) 50),
             (Z.ltb_spec 50 (cyclomaticComplexity f));
    try reflexivity; lia.
Qed.

(** C4.  The rating of a complexity value names exactly one band: simple
    iff the value is at most 10, moderate iff it is 11 to 20, complex iff
    it is 21 to 50, very complex iff it is 51 or more.  The four tallies of
    the summary count the records of each band, so every record is tallied
    once and the tallies add up to the number of records. *)
Theorem complexity_bands_partition :
  (forall c b, getComplexityRating c = bandLabel b <-> inBand b c) /\
  (forall c, exists b, inBand b c /\ forall b', inBand b' c -> b' = b) /\
  (forall functions b,
     tally b functions =
     Z.of_nat (length (List.filter
       (fun f => String.eqb (getComplexityRating (cyclomaticComplexity f)) (bandLabel b))
       functions))) /\
  (forall functions,
     simple functions + moderate functions + complexCount functions
       + veryComplex functions = Z.of_nat (length functions)).
Proof.
  split; [exact getComplexityRating_band|].
  split; [|split; [intros; apply tally_counts_band | exact tallies_partition]].
  intros c.
  destruct (Z.leb_spec c 10); [exists Simple|
    destruct (Z.leb_spec c 20); [exists Moderate|
      destruct (Z.leb_spec c 50); [exists Complex|exists VeryComplex]]];
    (split; [cbn; lia|]); intros []; cbn; intros; try reflexivity; lia.
Qed.

(** ** Ranking *)

Section Sorting.
Context {A : Type} (key : A -> Z).

#[local] Abbreviation descending := (fun a b : A => key b - key a).
#[local] Abbreviation ordered := (fun a b : A => key b <= key a).

Lemma sort_insert_Permutation (x : A) (l : list A) :
  Permutation (x :: l) (sort_insert descending x l).
Proof.
  induction l as [|y l IH]; cbn [sort_insert]; [reflexivity|].
  destruct (descending x y <=? 0); [reflexivity|].
  rewrite perm_swap. apply perm_skip, IH.
Qed.

Lemma sort_insert_sorted (x : A) (l : list A) :
  StronglySorted ordered l -> StronglySorted ordered (sort_insert descending x l).
Proof.
  induction 1 as [|y l Hl IH Hy]; cbn [sort_insert].
  - repeat constructor.
  - destruct (Z.leb_spec (descending x y) 0) as [Hle|Hgt]; cbn beta in *.
    + constructor; [constructor; assumption|].
      constructor; [lia|]. eapply List.Forall_impl; [|exact Hy].
      cbn beta. intros a Ha. lia.
    + constructor; [exact IH|].
      eapply Permutation_Forall; [apply sort_insert_Permutation|].
      constructor; [lia|exact Hy].
Qed.

Lemma sort_insert_stable (c : Z) (x : A) (l : list A) :
  List.filter (fun a => key a =? c) (sort_insert descending x l) =
  List.filter (fun a => key a =? c) (x :: l).
Proof.
  induction l as [|y l IH]; cbn [sort_insert]; [reflexivity|].
  destruct (Z.leb_spec (descending x y) 0) as [Hle|Hgt]; [reflexivity|].
  cbn beta in *.
  cbn [List.filter] in *. rewrite IH.
  destruct (Z.eqb_spec (key x) c), (Z.eqb_spec (key y) c); try reflexivity; lia.
Qed.

Lemma Array_sort_Permutation (l : list A) :
  Permutation l (Array_sort descending l).
Proof.
  induction l as [|x l IH]; cbn [Array_sort]; [reflexivity|].
  rewrite <- sort_insert_Permutation. apply perm_skip, IH.
Qed.

Lemma Array_sort_sorted (l : list A) :
  StronglySorted ordered (Array_sort descending l).
Proof.
  induction l as [|x l IH]; cbn [Array_sort]; [constructor|].
  apply sort_insert_sorted, IH.
Qed.

Lemma Array_sort_stable (c : Z) (l : list A) :
  List.filter (fun a => key a =? c) (Array_sort descending l) =
  List.filter (fun a => key a =? c) l.
Proof.
  induction l as [|x l IH]; cbn [Array_sort]; [reflexivity|].
  rewrite sort_insert_stable. cbn [List.filter]. rewrite IH. reflexivity.
Qed.
End Sorting.

(** C5.  Ranking orders the records by descending cyclomatic complexity,
    keeps exactly the records it was given, and is stable: for every
    complexity value, the records with that value appear in the ranking in
    the order in which they were discovered. *)
Theorem ranking_descending_and_stable (functions : list FunctionComplexity) :
  StronglySorted descendingByComplexity (Array_sort byComplexityDescending functions) /\
  Permutation functions (Array_sort byComplexityDescending functions) /\
  forall c,
    List.filter (fun f => cyclomaticComplexity f =? c)
      (Array_sort byComplexityDescending functions) =
    List.filter (fun f => cyclomaticComplexity f =? c) functions.
Proof.
  split; [exact (Array_sort_sorted cyclomaticComplexity functions)|].
  split; [exact (Array_sort_Permutation cyclomaticComplexity functions)|].
  intros c. exact (Array_sort_stable cyclomaticComplexity c functions).
Qed.

Example ranking_unranked :
  map name (Array_sort byComplexityDescending unranked)
    = ["d"; "b"; "e"; "a"; "c"; "f"]%string.
Proof. reflexivity. Qed.

(** ** The store *)

Lemma store_eta (s : Store) : mkStore (arrays s) (console s) = s.
Proof. destruct s; reflexivity. Qed.

Lemma readArray_writeArray (l : nat) (v : list FunctionComplexity) (s : Store) :
  readArray l (writeArray l v s) = v.
Proof. unfold readArray, writeArray; cbn. rewrite lookup_insert_eq. reflexivity. Qed.

Lemma lookup_writeArray_ne (l l' : nat) (v : list FunctionComplexity) (s : Store) :
  l <> l' -> arrays (writeArray l v s) !! l' = arrays s !! l'.
Proof. intros Hne. unfold writeArray; cbn. apply lookup_insert_ne, Hne. Qed.

Lemma writeArray_alive (l l' : nat) (v : list FunctionComplexity) (s : Store) :
  is_Some (arrays s !! l') -> is_Some (arrays (writeArray l v s) !! l').
Proof.
  intros H. unfold writeArray; cbn. destruct (decide (l = l')) as [->|Hne].
  - rewrite lookup_insert_eq. eauto.
  - rewrite lookup_insert_ne by exact Hne. exact H.
Qed.

Lemma fresh_not_alive (l : nat) (s : Store) :
  is_Some (arrays s !! l) -> fresh (dom (arrays s)) <> l.
Proof.
  intros H Heq. apply elem_of_dom in H. rewrite <- Heq in H.
  exact (is_fresh (dom (arrays s)) H).
Qed.

Lemma fresh_unallocated (s : Store) : arrays s !! fresh (dom (arrays s)) = None.
Proof. apply not_elem_of_dom, is_fresh. Qed.

Lemma pushed_nil (l : nat) (s : Store) :
  is_Some (arrays s !! l) -> pushed l [] s = s.
Proof.
  intros [v Hv]. unfold pushed, writeArray, readArray. rewrite Hv; cbn.
  rewrite app_nil_r, insert_id by exact Hv. apply store_eta.
Qed.

Lemma pushed_pushed (l : nat) (a b : list FunctionComplexity) (s : Store) :
  pushed l b (pushed l a s) = pushed l (a ++ b) s.
Proof.
  unfold pushed, writeArray, readArray; cbn.
  rewrite lookup_insert_eq, insert_insert_eq; cbn. rewrite app_assoc. reflexivity.
Qed.

Lemma readArray_pushed (l : nat) (a : list FunctionComplexity) (s : Store) :
  readArray l (pushed l a s) = readArray l s ++ a.
Proof. apply readArray_writeArray. Qed.

Lemma pushed_alive (l l' : nat) (a : list FunctionComplexity) (s : Store) :
  is_Some (arrays s !! l') -> is_Some (arrays (pushed l a s) !! l').
Proof. apply writeArray_alive. Qed.

Lemma forOf_pushed {A} (l : nat) (g : A -> list FunctionComplexity)
    (body : A -> St Store unit) (xs : list A) :
  (forall x s, In x xs -> is_Some (arrays s !! l) ->
     body x s = (Return tt, pushed l (g x) s)) ->
  forall s, is_Some (arrays s !! l) ->
    forOf xs body s = (Return tt, pushed l (flat_map g xs) s).
Proof.
  induction xs as [|x xs IH]; intros Hbody s Hs; cbn [forOf flat_map].
  - rewrite pushed_nil by exact Hs. reflexivity.
  - unfold bind. rewrite Hbody by (try left; auto).
    rewrite IH.
    + rewrite pushed_pushed. reflexivity.
    + intros y s' Hy Hs'. apply Hbody; [right|]; assumption.
    + apply pushed_alive, Hs.
Qed.

Lemma forOf_consoleWrite (lines : list ConsoleLine) (s : Store) :
  forOf lines consoleWrite s = (Return tt, mkStore (arrays s) (console s ++ lines)).
Proof.
  revert s. induction lines as [|x xs IH]; intros s; cbn [forOf].
  - rewrite app_nil_r, store_eta. reflexivity.
  - unfold bind, consoleWrite, modify. rewrite IH; cbn.
    rewrite <- app_assoc. reflexivity.
Qed.

(** ** The walk over a tree *)

Lemma functionsBelow_eq (n : Node) :
  functionsBelow n =
  flat_map (fun c => (if isFunctionLike c then [(n, c)] else []) ++ functionsBelow c)
    (children n).
Proof. destruct n; reflexivity. Qed.

Lemma map_flat_map {A B C} (f : B -> C) (h : A -> list B) (l : list A) :
  map f (flat_map h l) = flat_map (fun x => map f (h x)) l.
Proof.
  induction l as [|x l IH]; cbn [flat_map map]; [reflexivity|].
  rewrite map_app, IH. reflexivity.
Qed.

Lemma analyzeFunctionNode_spec (stack : nat) (this : ComplexityAnalyzer)
    (sourceFile : SourceFile) (parent node : Node) (s : Store) :
  (height node <= S stack)%nat ->
  analyzeFunctionNode stack this sourceFile (Some parent) node s =
    (Return tt, pushed (functions this) [recordFor sourceFile (parent, node)] s).
Proof.
  intros Hh. unfold analyzeFunctionNode, bind.
  rewrite getFunctionName_displayName, (calculateComplexity_spec stack node s Hh),
    (calculateMaxNesting_spec stack node s Hh).
  reflexivity.
Qed.

Lemma visitNode_spec (this : ComplexityAnalyzer) (sourceFile : SourceFile)
    (stack : nat) :
  forall (parent node : Node) (s : Store),
    (height node <= stack)%nat -> is_Some (arrays s !! functions this) ->
    visitNode stack this sourceFile (Some parent) node s =
      (Return tt,
       pushed (functions this)
         (map (recordFor sourceFile)
            ((if isFunctionLike node then [(parent, node)] else [])
               ++ functionsBelow node)) s).
Proof.
  induction stack as [|stack IH]; intros parent node s Hh Hs.
  { destruct node; simpl in Hh; lia. }
  pose proof (height_children node stack Hh) as Hall.
  rewrite List.Forall_forall in Hall.
  cbn [visitNode]. unfold bind, forEachChild.
  assert (Hfirst :
    (if isFunctionLike node
     then analyzeFunctionNode stack this sourceFile (Some parent) node
     else ret tt) s =
    (Return tt, pushed (functions this)
       (map (recordFor sourceFile)
          (if isFunctionLike node then [(parent, node)] else [])) s)).
  { destruct (isFunctionLike node).
    - apply analyzeFunctionNode_spec, Hh.
    - cbn [map]. rewrite pushed_nil by exact Hs. reflexivity. }
  rewrite Hfirst.
  rewrite (forOf_pushed (functions this)
    (fun c => map (recordFor sourceFile)
       ((if isFunctionLike c then [(node, c)] else []) ++ functionsBelow c))).
  - rewrite pushed_pushed, map_app, (functionsBelow_eq node), map_flat_map.
    reflexivity.
  - intros c s' Hc Hs'. apply IH; [apply Hall, Hc | exact Hs'].
  - apply pushed_alive, Hs.
Qed.

Lemma visitNode_root (this : ComplexityAnalyzer) (sourceFile : SourceFile)
    (stack : nat) (s : Store) :
  isFunctionLike (root sourceFile) = false ->
  (height (root sourceFile) <= stack)%nat ->
  is_Some (arrays s !! functions this) ->
  visitNode stack this sourceFile None (root sourceFile) s =
    (Return tt, pushed (functions this) (fileRecords sourceFile) s).
Proof.
  intros Hroot Hh Hs. destruct stack as [|stack].
  { destruct (root sourceFile); simpl in Hh; lia. }
  pose proof (height_children _ stack Hh) as Hall.
  rewrite List.Forall_forall in Hall.
  cbn [visitNode]. unfold bind, forEachChild. rewrite Hroot. unfold ret.
  unfold fileRecords. rewrite (functionsBelow_eq (root sourceFile)), map_flat_map.
  apply forOf_pushed; [|exact Hs].
  intros c s' Hc Hs'. apply visitNode_spec; [apply Hall, Hc | exact Hs'].
Qed.

(** ** [analyze] *)

Lemma afterCatch_empty (path : string) (e : Error) (s : Store) :
  readArray (fresh (dom (arrays s))) (afterCatch path e s) = [].
Proof. apply readArray_writeArray. Qed.

Lemma afterCatch_keeps (path : string) (e : Error) (s : Store) (l : nat) :
  is_Some (arrays s !! l) -> arrays (afterCatch path e s) !! l = arrays s !! l.
Proof.
  intros Hl. unfold afterCatch, writeArray; cbn.
  apply lookup_insert_ne, fresh_not_alive, Hl.
Qed.

Lemma analyze_read_fails (stack : nat) (host : Host) (this : ComplexityAnalyzer)
    (path : string) (e : Error) (s : Store) :
  readFileSync host path = Throw e ->
  analyze stack host this path s =
    (Return (fresh (dom (arrays s))), afterCatch path e s).
Proof. intros Hr. unfold analyze, tryCatch, bind, lift. rewrite Hr. reflexivity. Qed.

Lemma analyze_parse_fails (stack : nat) (host : Host) (this : ComplexityAnalyzer)
    (path source : string) (e : Error) (s : Store) :
  readFileSync host path = Return source ->
  createSourceFile host path source = Throw e ->
  analyze stack host this path s =
    (Return (fresh (dom (arrays s))), afterCatch path e s).
Proof.
  intros Hr Hp. unfold analyze, tryCatch, bind, lift. rewrite Hr, Hp. reflexivity.
Qed.

Lemma analyze_visit_throws (stack : nat) (host : Host) (this : ComplexityAnalyzer)
    (path source : string) (sourceFile : SourceFile) (e : Error) (s s' : Store) :
  readFileSync host path = Return source ->
  createSourceFile host path source = Return sourceFile ->
  visitNode stack this sourceFile None (root sourceFile) s = (Throw e, s') ->
  analyze stack host this path s =
    (Return (fresh (dom (arrays s'))), afterCatch path e s').
Proof.
  intros Hr Hp Hv. unfold analyze, tryCatch, bind, lift. rewrite Hr, Hp, Hv.
  reflexivity.
Qed.

Lemma analyze_visit_returns (stack : nat) (host : Host) (this : ComplexityAnalyzer)
    (path source : string) (sourceFile : SourceFile) (s s' : Store) :
  readFileSync host path = Return source ->
  createSourceFile host path source = Return sourceFile ->
  visitNode stack this sourceFile None (root sourceFile) s = (Return tt, s') ->
  analyze stack host this path s = (Return (functions this), s').
Proof.
  intros Hr Hp Hv. unfold analyze, tryCatch, bind, lift. rewrite Hr, Hp, Hv.
  reflexivity.
Qed.

Lemma analyze_loads (stack : nat) (host : Host) (this : ComplexityAnalyzer)
    (path : string) (sourceFile : SourceFile) (s : Store) :
  loads stack host path sourceFile ->
  is_Some (arrays s !! functions this) ->
  analyze stack host this path s =
    (Return (functions this), pushed (functions this) (fileRecords sourceFile) s).
Proof.
  intros [[source [Hr Hp]] [Hroot Hh]] Hs.
  eapply analyze_visit_returns; [exact Hr | exact Hp |].
  apply visitNode_root; assumption.
Qed.

Lemma analyzeFile_loads (stack : nat) (host : Host) (path : string)
    (sourceFile : SourceFile) (s : Store) :
  loads stack host path sourceFile ->
  analyzeFile stack host path s =
    (Return (fresh (dom (arrays s))),
     pushed (fresh (dom (arrays s))) (fileRecords sourceFile)
       (writeArray (fresh (dom (arrays s))) [] s)).
Proof.
  intros Hl. unfold analyzeFile, newComplexityAnalyzer, newArray, bind, ret.
  rewrite (analyze_loads stack host _ path sourceFile _ Hl); [reflexivity|].
  cbn. rewrite lookup_insert_eq. eauto.
Qed.

Lemma analyze_load_fails (stack : nat) (host : Host) (this : ComplexityAnalyzer)
    (path : string) (s : Store) :
  loadFails host path ->
  exists e, analyze stack host this path s =
            (Return (fresh (dom (arrays s))), afterCatch path e s).
Proof.
  intros [[e Hr]|[source [e [Hr Hp]]]]; exists e.
  - apply analyze_read_fails, Hr.
  - eapply analyze_parse_fails; eassumption.
Qed.

Lemma analyzeFile_load_fails (stack : nat) (host : Host) (path : string) (s : Store) :
  loadFails host path ->
  exists e l s', analyzeFile stack host path s = (Return l, s') /\
                 readArray l s' = [] /\
                 console s' = console s ++ [analysisErrorLine path e] /\
                 forall l', is_Some (arrays s !! l') ->
                            arrays s' !! l' = arrays s !! l'.
Proof.
  intros Hf. unfold analyzeFile, newComplexityAnalyzer, newArray, bind, ret.
  set (l0 := fresh (dom (arrays s))). set (s0 := writeArray l0 [] s).
  destruct (analyze_load_fails stack host (mkComplexityAnalyzer l0) path s0 Hf)
    as [e He].
  rewrite He. exists e. eexists _, _. split; [reflexivity|].
  split; [apply afterCatch_empty|]. split; [reflexivity|].
  intros l' Hl'. rewrite afterCatch_keeps by (apply writeArray_alive, Hl').
  apply lookup_writeArray_ne. apply fresh_not_alive, Hl'.
Qed.

(** ** Files that cannot be read or parsed *)

Lemma walkEntry_load_fails (recur : string -> St Store unit) (stack : nat)
    (host : Host) (extensions : list string) (allFunctions : nat)
    (dir file : string) (s : Store) :
  loadFails host (path_join host dir file) ->
  statSync host (path_join host dir file) = Return (mkStats false) ->
  existsb (fun ext => endsWith file ext) extensions = true ->
  is_Some (arrays s !! allFunctions) ->
  exists s',
    walkEntry recur stack host extensions allFunctions dir file s = (Return tt, s') /\
    forall l', is_Some (arrays s !! l') -> arrays s' !! l' = arrays s !! l'.
Proof.
  intros Hf Hstat Hext Hall. unfold walkEntry, bind, lift.
  rewrite Hstat. cbn [isDirectory]. rewrite Hext.
  unfold consoleWrite, modify, gets, push.
  set (s1 := mkStore (arrays s) _).
  destruct (analyzeFile_load_fails stack host _ s1 Hf)
    as (e & l & s2 & Hrun & Hempty & _ & Hkeep).
  rewrite Hrun, Hempty. exists s2. split.
  - unfold modify. rewrite pushed_nil; [reflexivity|].
    rewrite (Hkeep _ Hall). exact Hall.
  - intros l' Hl'. apply (Hkeep l' Hl').
Qed.

(** C6.  When reading or parsing a file fails, [analyze] does not throw:
    it returns an empty array and leaves every existing array as it was.
    In a directory walk the loop over the directory's entries goes on with
    the remaining entries, from a store in which every array (the
    aggregate included) holds what it held before the failing file. *)
Theorem failed_file_contributes_nothing
    (stack : nat) (host : Host) (path : string) :
  loadFails host path ->
  (forall this s, exists l s',
      analyze stack host this path s = (Return l, s') /\
      readArray l s' = [] /\
      forall l', is_Some (arrays s !! l') -> arrays s' !! l' = arrays s !! l') /\
  (forall recur extensions allFunctions dir file rest s,
      path_join host dir file = path ->
      statSync host path = Return (mkStats false) ->
      existsb (fun ext => endsWith file ext) extensions = true ->
      is_Some (arrays s !! allFunctions) ->
      exists s',
        forOf (file :: rest)
          (walkEntry recur stack host extensions allFunctions dir) s =
        forOf rest (walkEntry recur stack host extensions allFunctions dir) s' /\
        forall l', is_Some (arrays s !! l') -> arrays s' !! l' = arrays s !! l').
Proof.
  intros Hf. split.
  - intros this s. destruct (analyze_load_fails stack host this path s Hf) as [e He].
    eexists _, _. split; [exact He|]. split; [apply afterCatch_empty|].
    intros l' Hl'. apply afterCatch_keeps, Hl'.
  - intros recur extensions allFunctions dir file rest s Hjoin Hstat Hext Hall.
    subst path.
    destruct (walkEntry_load_fails recur stack host extensions allFunctions dir file
                s Hf Hstat Hext Hall) as [s' [Hrun Hkeep]].
    exists s'. split; [|exact Hkeep].
    cbn [forOf]. unfold bind. rewrite Hrun. reflexivity.
Qed.

Lemma failed_file_contributes_nothing_witness :
  loadFails exampleHost "src/gone.ts" /\
  (exists l s',
     analyze 10 exampleHost exampleAnalyzer "src/gone.ts" exampleStore
       = (Return l, s') /\
     readArray l s' = [] /\
     readArray (functions exampleAnalyzer) s'
       = readArray (functions exampleAnalyzer) exampleStore) /\
  (exists s',
     forOf ["gone.ts"; "small.ts"]%string
       (walkEntry (walk 9 exampleHost defaultExtensions 0) 9 exampleHost
          defaultExtensions 0 "src") exampleStore =
     forOf ["small.ts"%string]
       (walkEntry (walk 9 exampleHost defaultExtensions 0) 9 exampleHost
          defaultExtensions 0 "src") s' /\
     readArray 0 s' = readArray 0 exampleStore).
Proof.
  assert (H : loadFails exampleHost "src/gone.ts").
  { left. eexists. reflexivity. }
  assert (Halive : is_Some (arrays exampleStore !! 0%nat)) by (vm_compute; eauto).
  split; [exact H|].
  destruct (failed_file_contributes_nothing 10 exampleHost "src/gone.ts" H)
    as [Hanalyze _].
  destruct (failed_file_contributes_nothing 9 exampleHost "src/gone.ts" H)
    as [_ Hwalk].
  split.
  - destruct (Hanalyze exampleAnalyzer exampleStore) as (l & s' & Hrun & Hempty & Hkeep).
    exists l, s'. split; [exact Hrun|]. split; [exact Hempty|].
    change (functions exampleAnalyzer) with 0%nat.
    unfold readArray. rewrite (Hkeep _ Halive). reflexivity.
  - destruct (Hwalk (walk 9 exampleHost defaultExtensions 0) defaultExtensions 0%nat
                "src"%string "gone.ts"%string ["small.ts"%string] exampleStore
                eq_refl eq_refl eq_refl Halive) as (s' & Hloop & Hkeep).
    exists s'. split; [exact Hloop|].
    unfold readArray. rewrite (Hkeep _ Halive). reflexivity.
Defined.

(** A whole directory: [gone.ts] cannot be read, [broken.ts] cannot be
    parsed, [notes.md] is not a script; the aggregate holds the records of
    the other two files, in directory order. *)
Example analyzeDirectory_skips_failures :
  exists s',
    analyzeDirectory 10 exampleHost "src" defaultExtensions emptyStore
      = (Return 0%nat, s') /\
    readArray 0 s' = fileRecords smallFile ++ fileRecords otherFile /\
    map name (readArray 0 s') = ["f"; "k"]%string.
Proof. eexists. split; [vm_compute; reflexivity|]. split; reflexivity. Qed.

(** ** Exceptions raised while a tree is visited *)

(** C7, as the code has it.  An exception thrown while the tree is visited
    does not leave [analyze]: the [catch] writes one error line to the
    console and [analyze] returns a new, empty array.  The records pushed
    before the exception stay in the accumulator. *)
Theorem analyze_catches_visit_errors
    (stack : nat) (host : Host) (this : ComplexityAnalyzer) (path source : string)
    (sourceFile : SourceFile) (e : Error) (s sv : Store) :
  readFileSync host path = Return source ->
  createSourceFile host path source = Return sourceFile ->
  visitNode stack this sourceFile None (root sourceFile) s = (Throw e, sv) ->
  exists l s',
    analyze stack host this path s = (Return l, s') /\
    arrays sv !! l = None /\
    readArray l s' = [] /\
    console s' = console sv ++ [analysisErrorLine path e] /\
    forall l', is_Some (arrays sv !! l') -> arrays s' !! l' = arrays sv !! l'.
Proof.
  intros Hr Hp Hv. eexists _, _.
  split; [exact (analyze_visit_throws stack host this path source sourceFile e s sv
                   Hr Hp Hv)|].
  split; [apply fresh_unallocated|]. split; [apply afterCatch_empty|].
  split; [reflexivity|]. intros l' Hl'. apply afterCatch_keeps, Hl'.
Qed.

Lemma analyze_catches_visit_errors_witness :
  exists l s',
    visitNode 5 exampleAnalyzer deepFile None (root deepFile) exampleStore
      = (Throw stackOverflow, pushed 0 [recordFor deepFile
           (root deepFile, func "first" [] [])] exampleStore) /\
    analyze 5 exampleHost exampleAnalyzer "src/deep.ts" exampleStore = (Return l, s') /\
    readArray l s' = [] /\
    map name (readArray (functions exampleAnalyzer) s') = ["first"%string].
Proof.
  assert (Hv : visitNode 5 exampleAnalyzer deepFile None (root deepFile) exampleStore
      = (Throw stackOverflow, pushed 0 [recordFor deepFile
           (root deepFile, func "first" [] [])] exampleStore))
    by (vm_compute; reflexivity).
  destruct (analyze_catches_visit_errors 5 exampleHost exampleAnalyzer "src/deep.ts"
              "deep" deepFile stackOverflow exampleStore _ eq_refl eq_refl Hv)
    as (l & s' & Hrun & Hnew & Hempty & _ & Hkeep).
  exists l, s'. split; [exact Hv|]. split; [exact Hrun|]. split; [exact Hempty|].
  unfold readArray. rewrite Hkeep; [reflexivity|]. vm_compute. eauto.
Defined.

(** C7 as stated fails: on [deep.ts], whose second function is nested
    deeper than a stack of 5 calls, the visit throws, and [analyze] returns
    normally. *)
Lemma visit_errors_do_not_propagate : ~ visitErrorsPropagate.
Proof.
  intros H.
  specialize (H 5%nat exampleHost exampleAnalyzer "src/deep.ts"%string "deep"%string
                deepFile stackOverflow exampleStore
                (pushed 0 [recordFor deepFile (root deepFile, func "first" [] [])]
                   exampleStore) eq_refl eq_refl).
  assert (Hrun : fst (analyze 5 exampleHost exampleAnalyzer "src/deep.ts" exampleStore)
                 = Return 1%nat) by (vm_compute; reflexivity).
  rewrite Hrun in H. discriminate H. vm_compute; reflexivity.
Qed.

(** ** The accumulator *)

Lemma getFunctionName_state {T} (node : Node) (parent : option Node) (s : T) :
  snd (getFunctionName node parent s) = s.
Proof.
  unfold getFunctionName.
  destruct (isFunctionDeclaration node || isMethodDeclaration node); [reflexivity|].
  destruct parent as [parent|]; [|reflexivity].
  destruct (isVariableDeclaration parent), (isPropertyAssignment parent),
    (nameText parent); reflexivity.
Qed.

Lemma withLocal_state {V T} (init : V) (body : St V unit) (s : T) :
  snd (withLocal init body s) = s.
Proof. unfold withLocal. destruct (body init) as [[[]|e] v]; reflexivity. Qed.

Lemma analyzeFunctionNode_appends (stack : nat) (this : ComplexityAnalyzer)
    (sourceFile : SourceFile) (parent : option Node) (node : Node) (s : Store) :
  is_Some (arrays s !! functions this) ->
  exists items,
    snd (analyzeFunctionNode stack this sourceFile parent node s)
      = pushed (functions this) items s.
Proof.
  intros Hs. unfold analyzeFunctionNode, bind.
  pose proof (getFunctionName_state node parent s) as H1.
  destruct (getFunctionName node parent s) as [[text|e] s1]; cbn in H1; subst s1;
    [|exists []; rewrite pushed_nil by exact Hs; reflexivity].
  pose proof (withLocal_state 1
    (forEachChild node (calculateComplexity_visit stack)) s) as H2.
  unfold calculateComplexity.
  destruct (withLocal 1 _ s) as [[c|e] s2]; cbn in H2; subst s2;
    [|exists []; rewrite pushed_nil by exact Hs; reflexivity].
  pose proof (withLocal_state 0
    (forEachChild node (fun child => calculateMaxNesting_visit stack child 0)) s) as H3.
  unfold calculateMaxNesting.
  destruct (withLocal 0 _ s) as [[d|e] s3]; cbn in H3; subst s3;
    [|exists []; rewrite pushed_nil by exact Hs; reflexivity].
  eexists. reflexivity.
Qed.

Lemma forOf_appends {A} (l : nat) (body : A -> St Store unit) (xs : list A) :
  (forall x s, is_Some (arrays s !! l) ->
     exists items, snd (body x s) = pushed l items s) ->
  forall s, is_Some (arrays s !! l) ->
    exists items, snd (forOf xs body s) = pushed l items s.
Proof.
  intros Hbody. induction xs as [|x xs IH]; intros s Hs; cbn [forOf].
  - exists []. rewrite pushed_nil by exact Hs. reflexivity.
  - unfold bind. destruct (Hbody x s Hs) as [a Ha].
    destruct (body x s) as [[[]|e] s1]; cbn in Ha; subst s1.
    + destruct (IH (pushed l a s) (pushed_alive l l a s Hs)) as [b Hb].
      exists (a ++ b). rewrite Hb. apply pushed_pushed.
    + exists a. reflexivity.
Qed.

Lemma visitNode_appends (this : ComplexityAnalyzer) (sourceFile : SourceFile)
    (stack : nat) :
  forall (parent : option Node) (node : Node) (s : Store),
    is_Some (arrays s !! functions this) ->
    exists items,
      snd (visitNode stack this sourceFile parent node s)
        = pushed (functions this) items s.
Proof.
  induction stack as [|stack IH]; intros parent node s Hs.
  { exists []. rewrite pushed_nil by exact Hs. reflexivity. }
  cbn [visitNode]. unfold bind, forEachChild.
  assert (Hfirst : exists a,
    snd ((if isFunctionLike node
          then analyzeFunctionNode stack this sourceFile parent node
          else ret tt) s) = pushed (functions this) a s).
  { destruct (isFunctionLike node).
    - apply analyzeFunctionNode_appends, Hs.
    - exists []. rewrite pushed_nil by exact Hs. reflexivity. }
  destruct Hfirst as [a Ha].
  destruct ((if isFunctionLike node
             then analyzeFunctionNode stack this sourceFile parent node
             else ret tt) s) as [[[]|e] s1];
    cbn in Ha; subst s1; [|exists a; reflexivity].
  destruct (forOf_appends (functions this)
              (visitNode stack this sourceFile (Some node)) (children node)
              (fun x s0 => IH (Some node) x s0)
              (pushed (functions this) a s)
              (pushed_alive _ _ a s Hs)) as [b Hb].
  exists (a ++ b). rewrite Hb. apply pushed_pushed.
Qed.

Lemma analyze_appends (stack : nat) (host : Host) (this : ComplexityAnalyzer)
    (path : string) (s : Store) :
  is_Some (arrays s !! functions this) ->
  exists items,
    readArray (functions this) (snd (analyze stack host this path s))
      = readArray (functions this) s ++ items /\
    is_Some (arrays (snd (analyze stack host this path s)) !! functions this).
Proof.
  intros Hs.
  assert (Hcatch : forall e items,
    readArray (functions this)
      (afterCatch path e (pushed (functions this) items s))
      = readArray (functions this) s ++ items /\
    is_Some (arrays (afterCatch path e (pushed (functions this) items s))
               !! functions this)).
  { intros e items.
    pose proof (pushed_alive (functions this) _ items s Hs) as Hp.
    unfold readArray at 1.
    rewrite (afterCatch_keeps path e _ _ Hp). split; [|exact Hp].
    apply readArray_pushed. }
  destruct (readFileSync host path) as [source|e] eqn:Hr.
  2:{ rewrite (analyze_read_fails stack host this path e s Hr). exists [].
      pose proof (Hcatch e []) as Hc.
      rewrite pushed_nil in Hc by exact Hs. exact Hc. }
  destruct (createSourceFile host path source) as [sourceFile|e] eqn:Hp.
  2:{ rewrite (analyze_parse_fails stack host this path source e s Hr Hp). exists [].
      pose proof (Hcatch e []) as Hc.
      rewrite pushed_nil in Hc by exact Hs. exact Hc. }
  destruct (visitNode_appends this sourceFile stack None (root sourceFile) s Hs)
    as [items Hitems].
  destruct (visitNode stack this sourceFile None (root sourceFile) s)
    as [[[]|e] sv] eqn:Hv; cbn in Hitems; subst sv; exists items.
  - rewrite (analyze_visit_returns stack host this path source sourceFile s _ Hr Hp Hv).
    cbn [snd]. split; [apply readArray_pushed | apply pushed_alive, Hs].
  - rewrite (analyze_visit_throws stack host this path source sourceFile e s _ Hr Hp Hv).
    apply Hcatch.
Qed.

(** C9, as the code has it.  The accumulator of an analyzer is not
    cleared between calls of [analyze].  Whatever a first call did, the
    accumulator afterwards starts with what it held before; a second call
    on the same analyzer, for a file that is read, parsed and visited
    without error, returns the accumulator itself, holding everything it
    held after the first call followed by the records of the second file.
    [analyzeFile], which makes a new analyzer for each call, returns for
    the same file an array that is not the accumulator and holds the
    records of that file only. *)
Theorem accumulator_kept_across_calls
    (stack : nat) (host : Host) (this : ComplexityAnalyzer) (first second : string)
    (sourceFile : SourceFile) (s : Store) :
  is_Some (arrays s !! functions this) ->
  loads stack host second sourceFile ->
  exists s1 s2 l s3,
    snd (analyze stack host this first s) = s1 /\
    readArray (functions this) s `prefix_of` readArray (functions this) s1 /\
    analyze stack host this second s1 = (Return (functions this), s2) /\
    readArray (functions this) s2
      = readArray (functions this) s1 ++ fileRecords sourceFile /\
    analyzeFile stack host second s1 = (Return l, s3) /\
    l <> functions this /\
    readArray l s3 = fileRecords sourceFile.
Proof.
  intros Hs Hl.
  destruct (analyze_appends stack host this first s Hs) as [items [Hitems Hs1]].
  set (s1 := snd (analyze stack host this first s)) in *.
  exists s1, (pushed (functions this) (fileRecords sourceFile) s1),
    (fresh (dom (arrays s1))),
    (pushed (fresh (dom (arrays s1))) (fileRecords sourceFile)
       (writeArray (fresh (dom (arrays s1))) [] s1)).
  split; [reflexivity|]. split; [exists items; exact Hitems|].
  split; [apply analyze_loads; assumption|].
  split; [apply readArray_pushed|].
  split; [apply analyzeFile_loads; assumption|].
  split; [apply fresh_not_alive, Hs1|].
  rewrite readArray_pushed, readArray_writeArray. reflexivity.
Qed.

Lemma accumulator_kept_across_calls_witness :
  is_Some (arrays exampleStore !! functions exampleAnalyzer) /\
  loads 10 exampleHost "src/other.ts" otherFile /\
  exists s1 s2,
    analyze 10 exampleHost exampleAnalyzer "src/small.ts" exampleStore
      = (Return 0%nat, s1) /\
    analyze 10 exampleHost exampleAnalyzer "src/other.ts" s1 = (Return 0%nat, s2) /\
    map name (readArray 0 s1) = ["f"%string] /\
    map name (readArray 0 s2) = ["f"; "k"]%string.
Proof.
  assert (H1 : is_Some (arrays exampleStore !! functions exampleAnalyzer))
    by (vm_compute; eauto).
  assert (H2 : loads 10 exampleHost "src/other.ts" otherFile).
  { split; [exists "other"%string; split; reflexivity|].
    split; [reflexivity | vm_compute; lia]. }
  split; [exact H1|]. split; [exact H2|].
  destruct (accumulator_kept_across_calls 10 exampleHost exampleAnalyzer
              "src/small.ts" "src/other.ts" otherFile exampleStore H1 H2)
    as (s1 & s2 & l & s3 & Hs1 & _ & Hrun2 & Hread2 & _).
  exists s1, s2.
  assert (Hrun1 : analyze 10 exampleHost exampleAnalyzer "src/small.ts" exampleStore
                  = (Return 0%nat, s1)).
  { rewrite <- Hs1. vm_compute. reflexivity. }
  split; [exact Hrun1|]. split; [exact Hrun2|].
  assert (Hf : map name (readArray 0 s1) = ["f"%string]).
  { rewrite <- Hs1. vm_compute. reflexivity. }
  split; [exact Hf|].
  change 0%nat with (functions exampleAnalyzer).
  rewrite Hread2, map_app. change (functions exampleAnalyzer) with 0%nat.
  rewrite Hf. reflexivity.
Defined.

(** C9 as stated fails when the second call fails: after [small.ts] has
    put its record in the accumulator, a call for [gone.ts], which cannot
    be read, returns a new empty array, not the accumulator, so the
    returned list holds none of the first call's records. *)
Lemma failing_second_call_returns_empty_array :
  (exists s1 l s2,
     analyze 10 exampleHost exampleAnalyzer "src/small.ts" exampleStore
       = (Return (functions exampleAnalyzer), s1) /\
     map name (readArray (functions exampleAnalyzer) s1) = ["f"%string] /\
     analyze 10 exampleHost exampleAnalyzer "src/gone.ts" s1 = (Return l, s2) /\
     l <> functions exampleAnalyzer /\
     readArray l s2 = [] /\
     map name (readArray (functions exampleAnalyzer) s2) = ["f"%string]) /\
  ~ secondCallReturnsAccumulated.
Proof.
  split.
  - eexists _, _, _. split; [vm_compute; reflexivity|].
    split; [vm_compute; reflexivity|]. split; [vm_compute; reflexivity|].
    split; [vm_compute; discriminate|]. split; vm_compute; reflexivity.
  - intros H.
    destruct (H 10%nat exampleHost exampleAnalyzer "src/small.ts"%string
                "src/gone.ts"%string exampleStore) as (l & s2 & Hrun & k & Hk).
    { vm_compute. eauto. }
    vm_compute in Hrun. injection Hrun as <- <-.
    vm_compute in Hk. discriminate Hk.
Qed.

(** ** Invariants of a record *)

Lemma functionsBelow_descendants (k : nat) :
  forall (n parent c : Node),
    (height n <= k)%nat -> In (parent, c) (functionsBelow n) -> In c (descendants n).
Proof.
  induction k as [|k IH]; intros n parent c Hh Hin.
  { destruct n; simpl in Hh; lia. }
  pose proof (height_children n k Hh) as Hall. rewrite List.Forall_forall in Hall.
  rewrite functionsBelow_eq in Hin. rewrite descendants_eq.
  apply List.in_flat_map in Hin as [x [Hx Hin]]. apply List.in_flat_map.
  exists x. split; [exact Hx|].
  apply List.in_app_or in Hin as [Hself|Hbelow].
  - destruct (isFunctionLike x); [|destruct Hself].
    destruct Hself as [Heq|[]]. injection Heq as _ ->. left; reflexivity.
  - right. eapply IH; [apply Hall, Hx | exact Hbelow].
Qed.

Lemma maxDepthBelow_nonneg (f : Node) : 0 <= maxDepthBelow f.
Proof. unfold maxDepthBelow. induction (pathsBelow f); simpl; lia. Qed.

(** The numeric part of the invariant holds for every record of a file
    whose offsets and line map are as the parser builds them. *)
Lemma fileRecords_numeric (sourceFile : SourceFile) :
  wellPositioned sourceFile ->
  Forall (fun r => 1 <= cyclomaticComplexity r /\ 1 <= linesOfCode r /\
                   0 <= maxNestingDepth r /\ 0 <= parameterCount r /\
                   1 <= lineNumber r)
    (fileRecords sourceFile).
Proof.
  intros (Hline & Hmono & Hpos). unfold fileRecords.
  apply List.Forall_forall. intros r Hr.
  apply List.in_map_iff in Hr as [[parent node] [<- Hin]].
  apply (functionsBelow_descendants _ _ _ _ (Nat.le_refl _)) in Hin.
  rewrite List.Forall_forall in Hpos. specialize (Hpos node Hin).
  pose proof (Hmono _ _ Hpos). pose proof (Hline (getStart node)).
  pose proof (maxDepthBelow_nonneg node).
  cbn. repeat split; lia.
Qed.

(** The name is not empty as long as the enclosing binding's name has
    text; nothing in [getFunctionName] replaces an empty binding name. *)
Lemma displayName_nonempty (node parent : Node) :
  nameText parent <> Some ""%string -> displayName node parent <> ""%string.
Proof.
  intros Hp. unfold displayName, anonymous.
  destruct (isFunctionDeclaration node || isMethodDeclaration node).
  - destruct (nameText node) as [[|c t]|]; cbn; discriminate.
  - destruct (isVariableDeclaration parent), (isPropertyAssignment parent),
      (nameText parent) as [[|c t]|]; try discriminate; congruence.
Qed.

(** C8 at [try {} catch (= () => 1) {}].  The file is read and parsed and
    its offsets are well formed; the one record produced for the arrow
    function meets the numeric bounds, and its name is the empty text of
    the recovered catch variable. *)
Theorem recovered_binding_gives_empty_name :
  loads 10 exampleHost "src/recovered.ts" recoveredFile /\
  wellPositioned recoveredFile /\
  exists l s',
    analyzeFile 10 exampleHost "src/recovered.ts" emptyStore = (Return l, s') /\
    readArray l s' = [mkFunctionComplexity "" "recovered.ts" 1 1 1 0 0] /\
    ~ Forall recordInvariant (readArray l s').
Proof.
  split.
  { split; [exists "recovered"%string; split; reflexivity|].
    split; [reflexivity | vm_compute; lia]. }
  split.
  { split; [intros p; cbn; lia|]. split; [intros p q _; cbn; lia|].
    cbn. repeat constructor; cbn; lia. }
  eexists _, _. split; [vm_compute; reflexivity|]. split; [reflexivity|].
  intros H. apply List.Forall_inv in H. destruct H as (_ & _ & _ & _ & _ & Hname).
  apply Hname. reflexivity.
Qed.

(** ** [printSummary] *)

Lemma consoleWrite_run (line : ConsoleLine) (s : Store) :
  consoleWrite line s = (Return tt, mkStore (arrays s) (console s ++ [line])).
Proof. reflexivity. Qed.

Lemma printSummary_effect (functions : nat) (threshold : Z) (s : Store) :
  fst (printSummary functions threshold s) = Return tt /\
  arrays (snd (printSummary functions threshold s)) =
    if Nat.eqb (length (readArray functions s)) 0 then arrays s
    else <[functions := Array_sort byComplexityDescending (readArray functions s)]>
           (arrays s).
Proof.
  unfold printSummary, bind, gets, modify.
  destruct (Nat.eqb (length (readArray functions s)) 0); [split; reflexivity|].
  rewrite readArray_writeArray, consoleWrite_run. cbn iota beta.
  match goal with |- context [Nat.eqb ?n 0] => destruct (Nat.eqb n 0) end;
    rewrite consoleWrite_run; [split; reflexivity|].
  cbn iota beta. rewrite forOf_consoleWrite. cbn iota beta.
  rewrite !consoleWrite_run. split; reflexivity.
Qed.

(** C10.  [printSummary] returns normally and leaves the caller's array
    ranked: the array holds the stable descending sort of what it held, so
    it is ordered by descending cyclomatic complexity and holds the same
    records, each with the fields it had; no other array changes. *)
Theorem printSummary_sorts_in_place (functions : nat) (threshold : Z) (s : Store) :
  exists s',
    printSummary functions threshold s = (Return tt, s') /\
    readArray functions s'
      = Array_sort byComplexityDescending (readArray functions s) /\
    StronglySorted descendingByComplexity (readArray functions s') /\
    Permutation (readArray functions s) (readArray functions s') /\
    forall l, l <> functions -> arrays s' !! l = arrays s !! l.
Proof.
  destruct (printSummary_effect functions threshold s) as [Hret Harr].
  destruct (printSummary functions threshold s) as [r s'] eqn:Hrun.
  cbn [fst snd] in *. subst r. exists s'. split; [reflexivity|].
  assert (Hread : readArray functions s'
                  = Array_sort byComplexityDescending (readArray functions s)).
  { unfold readArray at 1. rewrite Harr.
    destruct (Nat.eqb_spec (length (readArray functions s)) 0) as [Hlen|Hlen].
    - apply length_zero_iff_nil in Hlen. rewrite Hlen. apply Hlen.
    - rewrite lookup_insert_eq. reflexivity. }
  split; [exact Hread|]. rewrite Hread.
  split; [exact (Array_sort_sorted cyclomaticComplexity _)|].
  split; [exact (Array_sort_Permutation cyclomaticComplexity _)|].
  intros l Hne. rewrite Harr.
  destruct (Nat.eqb (length (readArray functions s)) 0); [reflexivity|].
  apply lookup_insert_ne. congruence.
Qed.

(** The discovery order is gone after the call: the array of the example
    comes back in ranked order. *)
Example printSummary_reorders :
  let s := mkStore {[ 7%nat := unranked ]} [] in
  map name (readArray 7 s) = ["a"; "b"; "c"; "d"; "e"; "f"]%string /\
  map name (readArray 7 (snd (printSummary 7 10 s)))
    = ["d"; "b"; "e"; "a"; "c"; "f"]%string.
Proof. split; vm_compute; reflexivity. Qed.

(** * Further properties of the script *)

(** ** The records of a file *)

Lemma functionsBelow_filter (k : nat) :
  forall n, (height n <= k)%nat ->
    map snd (functionsBelow n) = List.filter isFunctionLike (descendants n).
Proof.
  induction k as [|k IH]; intros n Hh.
  { destruct n; simpl in Hh; lia. }
  pose proof (height_children n k Hh) as Hall.
  rewrite functionsBelow_eq, descendants_eq.
  induction Hall as [|x xs Hx Hxs IHxs]; [reflexivity|].
  cbn [flat_map]. rewrite !map_app, List.filter_app, IHxs, (IH x Hx).
  cbn [List.filter]. destruct (isFunctionLike x); reflexivity.
Qed.

Lemma functionsBelow_parent (k : nat) :
  forall n parent c, (height n <= k)%nat -> In (parent, c) (functionsBelow n) ->
    In c (children parent) /\ (parent = n \/ In parent (descendants n)).
Proof.
  induction k as [|k IH]; intros n parent c Hh Hin.
  { destruct n; simpl in Hh; lia. }
  pose proof (height_children n k Hh) as Hall. rewrite List.Forall_forall in Hall.
  rewrite functionsBelow_eq in Hin.
  apply List.in_flat_map in Hin as [x [Hx Hin]].
  apply List.in_app_or in Hin as [Hself|Hbelow].
  - destruct (isFunctionLike x); [|destruct Hself].
    destruct Hself as [Heq|[]]. injection Heq as <- <-. split; [exact Hx|left; reflexivity].
  - destruct (IH x parent c (Hall x Hx) Hbelow) as [Hc Hp]. split; [exact Hc|].
    right. rewrite descendants_eq. apply List.in_flat_map. exists x.
    split; [exact Hx|]. destruct Hp as [->|Hp]; [left; reflexivity|right; exact Hp].
Qed.

(** X1.  For a file that is read and parsed and whose tree fits the call
    stack, [analyze] returns the accumulator with one record appended for
    every function-like node below the root (declarations, methods, arrow
    functions and function expressions, those nested in other functions
    included), in document order; each record carries the display name
    resolved against the node's parent, the file name, the 1-based start
    line, and the four metrics of that node. *)
Theorem analyze_records_every_function
    (stack : nat) (host : Host) (this : ComplexityAnalyzer) (path : string)
    (sourceFile : SourceFile) (s : Store) :
  loads stack host path sourceFile ->
  is_Some (arrays s !! functions this) ->
  exists s',
    analyze stack host this path s = (Return (functions this), s') /\
    readArray (functions this) s' =
      readArray (functions this) s ++
      map (recordFor sourceFile) (functionsBelow (root sourceFile)) /\
    map snd (functionsBelow (root sourceFile)) =
      List.filter isFunctionLike (descendants (root sourceFile)) /\
    Forall (fun at_ => In (snd at_) (children (fst at_)))
      (functionsBelow (root sourceFile)).
Proof.
  intros Hl Hs. exists (pushed (functions this) (fileRecords sourceFile) s).
  split; [apply analyze_loads; assumption|].
  split; [apply readArray_pushed|].
  split; [apply (functionsBelow_filter _ _ (Nat.le_refl _))|].
  apply List.Forall_forall. intros [parent c] Hin.
  apply (functionsBelow_parent _ _ _ _ (Nat.le_refl _) Hin).
Qed.

Lemma analyze_records_every_function_witness :
  loads 10 treeHost "proj/lined.ts" linedFile /\
  is_Some (arrays exampleStore !! functions exampleAnalyzer) /\
  exists s',
    analyze 10 treeHost exampleAnalyzer "proj/lined.ts" exampleStore
      = (Return 0%nat, s') /\
    readArray 0 s' =
      [mkFunctionComplexity "run" "lined.ts" 1 2 5 1 2;
       mkFunctionComplexity "handler" "lined.ts" 3 2 2 1 1].
Proof.
  assert (H1 : loads 10 treeHost "proj/lined.ts" linedFile).
  { split; [exists "lined"%string; split; reflexivity|].
    split; [reflexivity | vm_compute; lia]. }
  assert (H2 : is_Some (arrays exampleStore !! functions exampleAnalyzer))
    by (vm_compute; eauto).
  split; [exact H1|]. split; [exact H2|].
  destruct (analyze_records_every_function 10 treeHost exampleAnalyzer
              "proj/lined.ts" linedFile exampleStore H1 H2)
    as (s' & Hrun & Hread & _).
  exists s'. split; [exact Hrun|].
  change 0%nat with (functions exampleAnalyzer). rewrite Hread. reflexivity.
Defined.

(** X2.  For a file that loads and whose offsets and line map are as the
    parser builds them, every record [analyzeFile] returns has cyclomatic
    complexity at least 1, at least one line, a nesting depth and a
    parameter count that are not negative, and a line number of at least
    1. *)
Theorem analyzeFile_records_within_bounds
    (stack : nat) (host : Host) (path : string) (sourceFile : SourceFile) (s : Store) :
  loads stack host path sourceFile ->
  wellPositioned sourceFile ->
  exists l s',
    analyzeFile stack host path s = (Return l, s') /\
    Forall (fun r => 1 <= cyclomaticComplexity r /\ 1 <= linesOfCode r /\
                     0 <= maxNestingDepth r /\ 0 <= parameterCount r /\
                     1 <= lineNumber r)
      (readArray l s').
Proof.
  intros Hl Hw. eexists _, _.
  split; [apply (analyzeFile_loads stack host path sourceFile s Hl)|].
  rewrite readArray_pushed, readArray_writeArray. cbn [app].
  apply fileRecords_numeric, Hw.
Qed.

Lemma analyzeFile_records_within_bounds_witness :
  loads 10 treeHost "proj/lined.ts" linedFile /\
  wellPositioned linedFile /\
  exists l s',
    analyzeFile 10 treeHost "proj/lined.ts" emptyStore = (Return l, s') /\
    Forall (fun r => 1 <= cyclomaticComplexity r /\ 1 <= linesOfCode r /\
                     0 <= maxNestingDepth r /\ 0 <= parameterCount r /\
                     1 <= lineNumber r)
      (readArray l s').
Proof.
  assert (H1 : loads 10 treeHost "proj/lined.ts" linedFile).
  { split; [exists "lined"%string; split; reflexivity|].
    split; [reflexivity | vm_compute; lia]. }
  assert (H2 : wellPositioned linedFile).
  { split; [intros p; cbn; apply Z.div_pos; lia|].
    split; [intros p q Hpq; cbn; apply Z.div_le_mono; lia|].
    cbn. repeat constructor; cbn; lia. }
  split; [exact H1|]. split; [exact H2|].
  exact (analyzeFile_records_within_bounds 10 treeHost "proj/lined.ts" linedFile
           emptyStore H1 H2).
Defined.

(** X3.  For a file that loads, if no node of the tree has a name whose
    text is empty, no record [analyzeFile] returns has an empty name. *)
Theorem analyzeFile_names_have_text
    (stack : nat) (host : Host) (path : string) (sourceFile : SourceFile) (s : Store) :
  loads stack host path sourceFile ->
  Forall (fun n => nameText n <> Some ""%string)
    (root sourceFile :: descendants (root sourceFile)) ->
  exists l s',
    analyzeFile stack host path s = (Return l, s') /\
    Forall (fun r => name r <> ""%string) (readArray l s').
Proof.
  intros Hl Hnames. eexists _, _.
  split; [apply (analyzeFile_loads stack host path sourceFile s Hl)|].
  rewrite readArray_pushed, readArray_writeArray. cbn [app].
  unfold fileRecords. apply List.Forall_forall. intros r Hr.
  apply List.in_map_iff in Hr as [[parent node] [<- Hin]].
  destruct (functionsBelow_parent _ _ _ _ (Nat.le_refl _) Hin) as [_ Hp].
  rewrite List.Forall_forall in Hnames. cbn [recordFor name].
  apply displayName_nonempty, Hnames.
  destruct Hp as [->|Hp]; [left; reflexivity | right; exact Hp].
Qed.

Lemma analyzeFile_names_have_text_witness :
  loads 10 treeHost "proj/lined.ts" linedFile /\
  Forall (fun n => nameText n <> Some ""%string)
    (root linedFile :: descendants (root linedFile)) /\
  exists l s',
    analyzeFile 10 treeHost "proj/lined.ts" emptyStore = (Return l, s') /\
    Forall (fun r => name r <> ""%string) (readArray l s').
Proof.
  assert (H1 : loads 10 treeHost "proj/lined.ts" linedFile).
  { split; [exists "lined"%string; split; reflexivity|].
    split; [reflexivity | vm_compute; lia]. }
  assert (H2 : Forall (fun n => nameText n <> Some ""%string)
                 (root linedFile :: descendants (root linedFile))).
  { cbn. repeat constructor; cbn; discriminate. }
  split; [exact H1|]. split; [exact H2|].
  exact (analyzeFile_names_have_text 10 treeHost "proj/lined.ts" linedFile
           emptyStore H1 H2).
Defined.

(** ** Trees deeper than the call stack *)

Lemma forOf_dichotomy {V A} (e0 : Error) (body : A -> St V unit) (xs : list A) :
  (forall x s, (exists s', body x s = (Return tt, s')) \/
               (exists s', body x s = (Throw e0, s'))) ->
  forall s, (exists s', forOf xs body s = (Return tt, s')) \/
            (exists s', forOf xs body s = (Throw e0, s')).
Proof.
  intros Hbody. induction xs as [|x xs IH]; intros s; cbn [forOf].
  - left. eexists. reflexivity.
  - unfold bind. destruct (Hbody x s) as [[s' Hx]|[s' Hx]]; rewrite Hx.
    + apply IH.
    + right. eexists. reflexivity.
Qed.

Lemma forOf_throws {V A} (e0 : Error) (body : A -> St V unit) (xs : list A) :
  (forall x s, (exists s', body x s = (Return tt, s')) \/
               (exists s', body x s = (Throw e0, s'))) ->
  (exists x, In x xs /\ forall s, exists s', body x s = (Throw e0, s')) ->
  forall s, exists s', forOf xs body s = (Throw e0, s').
Proof.
  intros Hbody [x [Hin Hx]]. induction xs as [|y ys IH]; [destruct Hin|].
  intros s. cbn [forOf]. unfold bind.
  destruct (Hbody y s) as [[s' Hy]|[s' Hy]]; rewrite Hy; [|eexists; reflexivity].
  destruct Hin as [->|Hin]; [|apply IH, Hin].
  destruct (Hx s) as [s'' Hthrow]. rewrite Hthrow in Hy. discriminate Hy.
Qed.

Lemma height_deep_child (n : Node) (k : nat) :
  (S k < height n)%nat -> exists x, In x (children n) /\ (k < height x)%nat.
Proof.
  destruct n as [kd nm op ps st en cs]; cbn [height children]. intros H.
  assert (Hmax : (k < list_max (map height cs))%nat) by lia. clear H.
  induction cs as [|x xs IH]; [cbn in Hmax; lia|].
  change (list_max (map height (x :: xs)))
    with (Nat.max (height x) (list_max (map height xs))) in Hmax.
  destruct (Nat.le_gt_cases (height x) k) as [Hle|Hgt].
  - destruct IH as [y [Hy Hky]]; [lia|].
    exists y. split; [right; exact Hy|exact Hky].
  - exists x. split; [left; reflexivity|exact Hgt].
Qed.

Lemma calculateComplexity_visit_step (stack : nat) (n : Node) (c : Z) :
  exists c', calculateComplexity_visit (S stack) n c =
             forOf (children n) (calculateComplexity_visit stack) c'.
Proof.
  cbn [calculateComplexity_visit]. unfold forEachChild, bind.
  destruct (isIfStatement n || isConditionalExpression n || isWhileStatement n ||
            isDoStatement n || isForStatement n || isForInStatement n ||
            isForOfStatement n || isCaseClause n || isCatchClause n);
    destruct (isBinaryExpression n);
    try destruct (isAmpersandAmpersand (operatorToken n) || isBarBar (operatorToken n));
    cbn; eexists; reflexivity.
Qed.

Lemma calculateComplexity_visit_dichotomy (stack : nat) :
  forall n c,
    (exists c', calculateComplexity_visit stack n c = (Return tt, c')) \/
    (exists c', calculateComplexity_visit stack n c = (Throw stackOverflow, c')).
Proof.
  induction stack as [|stack IH]; intros n c.
  { right. eexists. reflexivity. }
  destruct (calculateComplexity_visit_step stack n c) as [c' ->].
  apply forOf_dichotomy, IH.
Qed.

Lemma calculateComplexity_visit_overflow (stack : nat) :
  forall n c, (stack < height n)%nat ->
    exists c', calculateComplexity_visit stack n c = (Throw stackOverflow, c').
Proof.
  induction stack as [|stack IH]; intros n c Hh.
  { eexists. reflexivity. }
  destruct (calculateComplexity_visit_step stack n c) as [c' ->].
  destruct (height_deep_child n stack Hh) as [x [Hx Hdeep]].
  apply forOf_throws; [apply calculateComplexity_visit_dichotomy|].
  exists x. split; [exact Hx|]. intros s. apply IH, Hdeep.
Qed.

Lemma calculateMaxNesting_visit_step (stack : nat) (n : Node) (d m : Z) :
  exists d' m', calculateMaxNesting_visit (S stack) n d m =
                forOf (children n)
                  (fun child => calculateMaxNesting_visit stack child d') m'.
Proof.
  cbn [calculateMaxNesting_visit]. unfold forEachChild, bind.
  destruct (isIfStatement n || isWhileStatement n || isDoStatement n ||
            isForStatement n || isForInStatement n || isForOfStatement n ||
            isTryStatement n || isSwitchStatement n);
    cbn; eexists _, _; reflexivity.
Qed.

Lemma calculateMaxNesting_visit_dichotomy (stack : nat) :
  forall n d m,
    (exists m', calculateMaxNesting_visit stack n d m = (Return tt, m')) \/
    (exists m', calculateMaxNesting_visit stack n d m = (Throw stackOverflow, m')).
Proof.
  induction stack as [|stack IH]; intros n d m.
  { right. eexists. reflexivity. }
  destruct (calculateMaxNesting_visit_step stack n d m) as (d' & m' & ->).
  apply forOf_dichotomy. intros x s. apply IH.
Qed.

Lemma calculateMaxNesting_visit_overflow (stack : nat) :
  forall n d m, (stack < height n)%nat ->
    exists m', calculateMaxNesting_visit stack n d m = (Throw stackOverflow, m').
Proof.
  induction stack as [|stack IH]; intros n d m Hh.
  { eexists. reflexivity. }
  destruct (calculateMaxNesting_visit_step stack n d m) as (d' & m' & ->).
  destruct (height_deep_child n stack Hh) as [x [Hx Hdeep]].
  apply forOf_throws.
  - intros y s. apply calculateMaxNesting_visit_dichotomy.
  - exists x. split; [exact Hx|]. intros s. apply IH, Hdeep.
Qed.

Lemma calculateComplexity_overflows {T} (stack : nat) (f : Node) (s : T) :
  (S stack < height f)%nat ->
  calculateComplexity stack f s = (Throw stackOverflow, s).
Proof.
  intros Hh. destruct (height_deep_child f stack Hh) as [x [Hx Hdeep]].
  unfold calculateComplexity, withLocal, forEachChild.
  destruct (forOf_throws stackOverflow (calculateComplexity_visit stack) (children f)
              (calculateComplexity_visit_dichotomy stack)
              (ex_intro _ x (conj Hx (fun c =>
                 calculateComplexity_visit_overflow stack x c Hdeep))) 1)
    as [c' ->].
  reflexivity.
Qed.

Lemma calculateMaxNesting_overflows {T} (stack : nat) (f : Node) (depth : Z) (s : T) :
  (S stack < height f)%nat ->
  calculateMaxNesting stack f depth s = (Throw stackOverflow, s).
Proof.
  intros Hh. destruct (height_deep_child f stack Hh) as [x [Hx Hdeep]].
  unfold calculateMaxNesting, withLocal, forEachChild.
  destruct (forOf_throws stackOverflow
              (fun child => calculateMaxNesting_visit stack child depth) (children f)
              (fun y m => calculateMaxNesting_visit_dichotomy stack y depth m)
              (ex_intro _ x (conj Hx (fun m =>
                 calculateMaxNesting_visit_overflow stack x depth m Hdeep))) depth)
    as [m' ->].
  reflexivity.
Qed.

(** X4.  Whatever the call stack allows, each of the two recursive
    calculators either returns the exact metric of the node or throws the
    engine's [RangeError]: a run that is cut short never yields a partial
    count or depth, and no other exception is raised. *)
Theorem calculators_return_exact_or_overflow
    (stack : nat) (f : Node) (s : Store) :
  (calculateComplexity stack f s =
     (Return (1 + Z.of_nat (length (List.filter isDecisionPoint (descendants f)))), s)
   \/ calculateComplexity stack f s = (Throw stackOverflow, s)) /\
  (calculateMaxNesting stack f 0 s =
     (Return (foldr Z.max 0 (map depthAlong (pathsBelow f))), s)
   \/ calculateMaxNesting stack f 0 s = (Throw stackOverflow, s)).
Proof.
  destruct (Nat.le_gt_cases (height f) (S stack)) as [Hfit|Hdeep].
  - split; left; [apply calculateComplexity_spec | apply calculateMaxNesting_spec];
      exact Hfit.
  - split; right;
      [apply calculateComplexity_overflows | apply calculateMaxNesting_overflows];
      exact Hdeep.
Qed.

Lemma analyzeFunctionNode_dichotomy (stack : nat) (this : ComplexityAnalyzer)
    (sourceFile : SourceFile) (parent node : Node) (s : Store) :
  (exists s', analyzeFunctionNode stack this sourceFile (Some parent) node s
              = (Return tt, s')) \/
  (exists s', analyzeFunctionNode stack this sourceFile (Some parent) node s
              = (Throw stackOverflow, s')).
Proof.
  destruct (Nat.le_gt_cases (height node) (S stack)) as [Hfit|Hdeep].
  - left. eexists. apply analyzeFunctionNode_spec, Hfit.
  - right. exists s. unfold analyzeFunctionNode, bind.
    rewrite getFunctionName_displayName, (calculateComplexity_overflows stack node s Hdeep).
    reflexivity.
Qed.

Lemma visitNode_dichotomy (this : ComplexityAnalyzer) (sourceFile : SourceFile)
    (stack : nat) :
  forall parent node s,
    (exists s', visitNode stack this sourceFile (Some parent) node s = (Return tt, s')) \/
    (exists s', visitNode stack this sourceFile (Some parent) node s
                = (Throw stackOverflow, s')).
Proof.
  induction stack as [|stack IH]; intros parent node s.
  { right. eexists. reflexivity. }
  cbn [visitNode]. unfold bind, forEachChild.
  destruct (isFunctionLike node).
  - destruct (analyzeFunctionNode_dichotomy stack this sourceFile parent node s)
      as [[s' ->]|[s' ->]]; [|right; eexists; reflexivity].
    apply forOf_dichotomy. intros x s0. apply IH.
  - cbn. apply forOf_dichotomy. intros x s0. apply IH.
Qed.

Lemma visitNode_overflow (this : ComplexityAnalyzer) (sourceFile : SourceFile)
    (stack : nat) :
  forall parent node s, (stack < height node)%nat ->
    exists s', visitNode stack this sourceFile (Some parent) node s
               = (Throw stackOverflow, s').
Proof.
  induction stack as [|stack IH]; intros parent node s Hh.
  { eexists. reflexivity. }
  destruct (height_deep_child node stack Hh) as [x [Hx Hdeep]].
  cbn [visitNode]. unfold bind, forEachChild.
  assert (Hloop : forall s0, exists s',
            forOf (children node) (visitNode stack this sourceFile (Some node)) s0
            = (Throw stackOverflow, s')).
  { apply forOf_throws.
    - intros y s0. apply visitNode_dichotomy.
    - exists x. split; [exact Hx|]. intros s0. apply IH, Hdeep. }
  destruct (isFunctionLike node); [|apply Hloop].
  destruct (analyzeFunctionNode_dichotomy stack this sourceFile parent node s)
    as [[s' ->]|[s' ->]]; [apply Hloop | eexists; reflexivity].
Qed.

Lemma visitNode_root_overflow (this : ComplexityAnalyzer) (sourceFile : SourceFile)
    (stack : nat) (s : Store) :
  isFunctionLike (root sourceFile) = false ->
  (stack < height (root sourceFile))%nat ->
  exists s', visitNode stack this sourceFile None (root sourceFile) s
             = (Throw stackOverflow, s').
Proof.
  intros Hroot Hh. destruct stack as [|stack]; [eexists; reflexivity|].
  destruct (height_deep_child _ stack Hh) as [x [Hx Hdeep]].
  cbn [visitNode]. unfold bind, forEachChild. rewrite Hroot. cbn.
  apply forOf_throws.
  - intros y s0. apply visitNode_dichotomy.
  - exists x. split; [exact Hx|]. intros s0. apply visitNode_overflow, Hdeep.
Qed.

(** X5.  A file that is read and parsed but whose tree is higher than the
    call stack allows yields no records: [analyze] returns a new empty
    array, not the accumulator, and the last console line reports the
    [RangeError] for that file. *)
Theorem analyze_deep_file_returns_empty
    (stack : nat) (host : Host) (this : ComplexityAnalyzer) (path source : string)
    (sourceFile : SourceFile) (s : Store) :
  readFileSync host path = Return source ->
  createSourceFile host path source = Return sourceFile ->
  isFunctionLike (root sourceFile) = false ->
  (stack < height (root sourceFile))%nat ->
  is_Some (arrays s !! functions this) ->
  exists l s' before,
    analyze stack host this path s = (Return l, s') /\
    l <> functions this /\
    readArray l s' = [] /\
    console s' = before ++ [analysisErrorLine path stackOverflow].
Proof.
  intros Hr Hp Hroot Hdeep Hs.
  destruct (visitNode_root_overflow this sourceFile stack s Hroot Hdeep) as [sv Hv].
  destruct (visitNode_appends this sourceFile stack None (root sourceFile) s Hs)
    as [items Hitems].
  rewrite Hv in Hitems. cbn [snd] in Hitems.
  eexists _, _, (console sv).
  split; [exact (analyze_visit_throws stack host this path source sourceFile _ s sv
                   Hr Hp Hv)|].
  split; [|split; [apply afterCatch_empty | reflexivity]].
  apply fresh_not_alive. rewrite Hitems. apply pushed_alive, Hs.
Qed.

Lemma analyze_deep_file_returns_empty_witness :
  (5 < height (root deepFile))%nat /\
  exists l s',
    analyze 5 exampleHost exampleAnalyzer "src/deep.ts" exampleStore = (Return l, s') /\
    l <> functions exampleAnalyzer /\
    readArray l s' = [].
Proof.
  assert (H : (5 < height (root deepFile))%nat) by (vm_compute; lia).
  assert (Halive : is_Some (arrays exampleStore !! functions exampleAnalyzer))
    by (vm_compute; eauto).
  split; [exact H|].
  destruct (analyze_deep_file_returns_empty 5 exampleHost exampleAnalyzer
              "src/deep.ts" "deep" deepFile exampleStore eq_refl eq_refl eq_refl H
              Halive) as (l & s' & before & Hrun & Hne & Hempty & _).
  exists l, s'. split; [exact Hrun|]. split; [exact Hne | exact Hempty].
Defined.

(** ** How the metrics of a node relate to those of the nodes inside it *)

Lemma filter_flat_map_le {A B} (p : B -> bool) (h : A -> list B) (x : A) (xs : list A) :
  In x xs ->
  (length (List.filter p (h x)) <= length (List.filter p (flat_map h xs)))%nat.
Proof.
  induction xs as [|y ys IH]; [intros []|].
  intros [->|Hin]; cbn [flat_map]; rewrite List.filter_app, List.length_app.
  - lia.
  - specialize (IH Hin). lia.
Qed.

Lemma weight_le_decisionPoints (k : nat) :
  forall f g, (height f <= k)%nat -> In g (descendants f) ->
    weight g <= Z.of_nat (decisionPoints f).
Proof.
  induction k as [|k IH]; intros f g Hh Hin.
  { destruct f; simpl in Hh; lia. }
  pose proof (height_children f k Hh) as Hall. rewrite List.Forall_forall in Hall.
  unfold decisionPoints. rewrite descendants_eq in *.
  apply List.in_flat_map in Hin as [x [Hx Hin]].
  pose proof (filter_flat_map_le isDecisionPoint (fun c => c :: descendants c)
                x (children f) Hx) as Hle.
  destruct Hin as [->|Hin]; [unfold weight; lia|].
  specialize (IH x g (Hall x Hx) Hin). unfold decisionPoints in IH.
  cbn [List.filter] in Hle. destruct (isDecisionPoint x); cbn [length] in Hle; lia.
Qed.

Lemma descendants_height (k : nat) :
  forall f g, (height f <= k)%nat -> In g (descendants f) -> (height g < height f)%nat.
Proof.
  induction k as [|k IH]; intros f g Hh Hin.
  { destruct f; simpl in Hh; lia. }
  pose proof (height_children f k Hh) as Hall. rewrite List.Forall_forall in Hall.
  rewrite descendants_eq in Hin. apply List.in_flat_map in Hin as [x [Hx Hin]].
  pose proof (height_child f x Hx).
  destruct Hin as [->|Hin]; [assumption|].
  specialize (IH x g (Hall x Hx) Hin). lia.
Qed.

Lemma deepest_shift (d : Z) (paths : list (list Node)) :
  deepest d paths = d + deepest 0 paths.
Proof.
  unfold deepest. induction paths as [|p ps IH]; cbn [map foldr]; [lia|].
  rewrite IH. lia.
Qed.

Lemma deepest_flat_map_ge {A} (d : Z) (h : A -> list (list Node)) (x : A) (xs : list A) :
  In x xs -> deepest d (h x) <= deepest d (flat_map h xs).
Proof.
  induction xs as [|y ys IH]; [intros []|].
  intros [->|Hin]; cbn [flat_map]; rewrite deepest_app.
  - lia.
  - specialize (IH Hin). lia.
Qed.

Lemma depthAlong_single_nonneg (n : Node) : 0 <= depthAlong [n].
Proof. unfold depthAlong. lia. Qed.

Lemma maxDepthBelow_deepest (f : Node) : maxDepthBelow f = deepest 0 (pathsBelow f).
Proof. reflexivity. Qed.

Lemma maxDepthBelow_descendant (k : nat) :
  forall f g, (height f <= k)%nat -> In g (descendants f) ->
    depthAlong [g] + maxDepthBelow g <= maxDepthBelow f.
Proof.
  induction k as [|k IH]; intros f g Hh Hin.
  { destruct f; simpl in Hh; lia. }
  pose proof (height_children f k Hh) as Hall. rewrite List.Forall_forall in Hall.
  rewrite !maxDepthBelow_deepest. rewrite (pathsBelow_eq f).
  rewrite descendants_eq in Hin. apply List.in_flat_map in Hin as [x [Hx Hin]].
  pose proof (deepest_flat_map_ge 0
                (fun c => [c] :: map (cons c) (pathsBelow c)) x (children f) Hx) as Hle.
  cbn beta in Hle. rewrite deepest_cons, deepest_shift in Hle.
  destruct Hin as [->|Hin]; [lia|].
  specialize (IH x g (Hall x Hx) Hin). rewrite !maxDepthBelow_deepest in IH.
  pose proof (depthAlong_single_nonneg x). lia.
Qed.

(** X6.  The metrics of a function dominate those of every function
    nested in it: for a node [g] below [f], the complexity computed for
    [f] is at least the complexity computed for [g] (plus one when [g]
    itself is a decision point), and the nesting depth computed for [f] is
    at least the depth computed for [g] (plus one when [g] itself is a
    nesting construct). *)
Theorem enclosing_metrics_dominate_nested
    (stack : nat) (f g : Node) (s : Store) :
  (height f <= S stack)%nat ->
  In g (descendants f) ->
  exists cf cg nf ng,
    calculateComplexity stack f s = (Return cf, s) /\
    calculateComplexity stack g s = (Return cg, s) /\
    calculateMaxNesting stack f 0 s = (Return nf, s) /\
    calculateMaxNesting stack g 0 s = (Return ng, s) /\
    cg + (if isDecisionPoint g then 1 else 0) <= cf /\
    ng + (if isNesting g then 1 else 0) <= nf.
Proof.
  intros Hh Hin.
  pose proof (descendants_height _ f g (Nat.le_refl _) Hin) as Hg.
  assert (Hgh : (height g <= S stack)%nat) by lia.
  eexists _, _, _, _.
  split; [apply calculateComplexity_spec, Hh|].
  split; [apply calculateComplexity_spec, Hgh|].
  split; [apply calculateMaxNesting_spec, Hh|].
  split; [apply calculateMaxNesting_spec, Hgh|].
  split.
  - pose proof (weight_le_decisionPoints _ f g (Nat.le_refl _) Hin) as Hw.
    unfold weight, decisionPoints in *. cbn [List.filter] in Hw.
    destruct (isDecisionPoint g); cbn [length] in Hw; lia.
  - pose proof (maxDepthBelow_descendant _ f g (Nat.le_refl _) Hin) as Hd.
    unfold depthAlong at 1 in Hd. cbn [List.filter] in Hd.
    destruct (isNesting g); cbn [length] in Hd; lia.
Qed.

Lemma enclosing_metrics_dominate_nested_witness :
  (height outerFunction <= 12)%nat /\
  In innerArrow (descendants outerFunction) /\
  calculateComplexity 11 outerFunction emptyStore = (Return 3, emptyStore) /\
  calculateComplexity 11 innerArrow emptyStore = (Return 2, emptyStore) /\
  calculateMaxNesting 11 outerFunction 0 emptyStore = (Return 2, emptyStore) /\
  calculateMaxNesting 11 innerArrow 0 emptyStore = (Return 1, emptyStore).
Proof.
  assert (H1 : (height outerFunction <= 12)%nat) by (vm_compute; lia).
  assert (H2 : In innerArrow (descendants outerFunction)).
  { cbn. repeat match goal with
                | |- _ \/ _ => first [left; reflexivity | right]
                end. }
  split; [exact H1|]. split; [exact H2|].
  destruct (enclosing_metrics_dominate_nested 11 outerFunction innerArrow emptyStore
              H1 H2) as (cf & cg & nf & ng & Hcf & Hcg & Hnf & Hng & _).
  rewrite Hcf, Hcg, Hnf, Hng.
  vm_compute in Hcf, Hcg, Hnf, Hng.
  injection Hcf as <-. injection Hcg as <-. injection Hnf as <-. injection Hng as <-.
  repeat split.
Defined.

Lemma decisionPoints_children (cs : list Node) :
  Z.of_nat (length (List.filter isDecisionPoint
                      (flat_map (fun c => c :: descendants c) cs))) =
  foldr Z.add 0
    (zip_with (fun c r => (if isDecisionPoint c then 1 else 0) + (r - 1)) cs
       (map (fun c => 1 + Z.of_nat (decisionPoints c)) cs)).
Proof.
  induction cs as [|x xs IH]; [reflexivity|].
  cbn [flat_map map zip_with foldr]. rewrite <- IH.
  change (x :: descendants x ++ ?r) with ((x :: descendants x) ++ r).
  rewrite List.filter_app, List.length_app. cbn [List.filter]. unfold decisionPoints.
  destruct (isDecisionPoint x); cbn [length]; lia.
Qed.

Lemma children_results {T} (stack : nat) (f : Node) (s : T) :
  (height f <= S stack)%nat ->
  Forall2 (fun c r => calculateComplexity stack c s = (Return r, s)) (children f)
    (map (fun c => 1 + Z.of_nat (decisionPoints c)) (children f)) /\
  Forall2 (fun c r => calculateMaxNesting stack c 0 s = (Return r, s)) (children f)
    (map maxDepthBelow (children f)).
Proof.
  intros Hh. pose proof (height_children f stack Hh) as Hall.
  induction Hall as [|x xs Hx Hxs [IH1 IH2]]; [split; constructor|].
  split; (constructor; [|assumption]).
  - apply calculateComplexity_spec. lia.
  - apply calculateMaxNesting_spec. lia.
Qed.

(** X7.  The complexity of a node is composed from its children: it is 1
    plus, for each child, the child's own increment (1 when the child is a
    decision point) and what the child's subtree adds, which is the
    complexity computed for the child minus its base 1.  So a construct
    added anywhere raises the complexity of every enclosing node by the
    same amount. *)
Theorem complexity_composes_over_children (stack : nat) (f : Node) (s : Store) :
  (height f <= S stack)%nat ->
  exists results,
    Forall2 (fun c r => calculateComplexity stack c s = (Return r, s))
      (children f) results /\
    calculateComplexity stack f s =
      (Return (1 + foldr Z.add 0
                 (zip_with (fun c r => (if isDecisionPoint c then 1 else 0) + (r - 1))
                    (children f) results)), s).
Proof.
  intros Hh. exists (map (fun c => 1 + Z.of_nat (decisionPoints c)) (children f)).
  split; [apply (children_results stack f s Hh)|].
  rewrite (calculateComplexity_spec stack f s Hh). unfold decisionPoints at 1.
  rewrite descendants_eq, decisionPoints_children. reflexivity.
Qed.

Lemma complexity_composes_over_children_witness :
  (height scenario2 <= 12)%nat /\
  exists results,
    Forall2 (fun c r => calculateComplexity 11 c emptyStore = (Return r, emptyStore))
      (children scenario2) results /\
    results = [1; 1; 1; 3] /\
    calculateComplexity 11 scenario2 emptyStore = (Return 3, emptyStore).
Proof.
  assert (H : (height scenario2 <= 12)%nat) by (vm_compute; lia).
  split; [exact H|].
  destruct (complexity_composes_over_children 11 scenario2 emptyStore H)
    as (results & Hall & Hrun).
  exists results. split; [exact Hall|].
  assert (Hres : results = [1; 1; 1; 3]).
  { cbn [children scenario2 func app] in Hall.
    repeat match goal with
           | H : Forall2 _ (_ :: _) _ |- _ => inversion H; subst; clear H
           | H : Forall2 _ [] _ |- _ => inversion H; subst; clear H
           | H : calculateComplexity _ _ _ = _ |- _ =>
               vm_compute in H; injection H as <-
           end.
    reflexivity. }
  split; [exact Hres|]. rewrite Hrun, Hres. reflexivity.
Defined.

Lemma maxDepth_children (cs : list Node) :
  deepest 0 (flat_map (fun c => [c] :: map (cons c) (pathsBelow c)) cs) =
  foldr Z.max 0
    (zip_with (fun c r => (if isNesting c then 1 else 0) + r) cs
       (map maxDepthBelow cs)).
Proof.
  induction cs as [|x xs IH]; [reflexivity|].
  cbn [flat_map map zip_with foldr]. rewrite <- IH.
  change (([x] :: map (cons x) (pathsBelow x)) ++ ?r)
    with (([x] :: map (cons x) (pathsBelow x)) ++ r).
  rewrite (deepest_app 0 ([x] :: map (cons x) (pathsBelow x))), deepest_cons,
    deepest_shift, maxDepthBelow_deepest.
  unfold depthAlong. cbn [List.filter].
  destruct (isNesting x); cbn [length]; lia.
Qed.

(** X8.  The nesting depth of a node is composed from its children: it is
    the largest, over the children, of the depth computed for the child
    plus 1 when the child is a nesting construct (and 0 for a node without
    children).  A function literal passes the depth of its body on
    unchanged. *)
Theorem nesting_composes_over_children (stack : nat) (f : Node) (s : Store) :
  (height f <= S stack)%nat ->
  exists results,
    Forall2 (fun c r => calculateMaxNesting stack c 0 s = (Return r, s))
      (children f) results /\
    calculateMaxNesting stack f 0 s =
      (Return (foldr Z.max 0
                 (zip_with (fun c r => (if isNesting c then 1 else 0) + r)
                    (children f) results)), s).
Proof.
  intros Hh. exists (map maxDepthBelow (children f)).
  split; [apply (children_results stack f s Hh)|].
  rewrite (calculateMaxNesting_spec stack f s Hh), maxDepthBelow_deepest,
    pathsBelow_eq, maxDepth_children.
  reflexivity.
Qed.

Lemma nesting_composes_over_children_witness :
  (height scenarioNested <= 12)%nat /\
  exists results,
    Forall2 (fun c r => calculateMaxNesting 11 c 0 emptyStore = (Return r, emptyStore))
      (children scenarioNested) results /\
    calculateMaxNesting 11 scenarioNested 0 emptyStore = (Return 3, emptyStore).
Proof.
  assert (H : (height scenarioNested <= 12)%nat) by (vm_compute; lia).
  split; [exact H|].
  destruct (nesting_composes_over_children 11 scenarioNested emptyStore H)
    as (results & Hall & Hrun).
  exists results. split; [exact Hall|].
  rewrite (calculateMaxNesting_spec 11 scenarioNested emptyStore H). reflexivity.
Defined.

(** ** The walk over a directory *)

Lemma forOf_app_run {V A} (xs ys : list A) (body : A -> St V unit) (s : V) :
  forOf (xs ++ ys) body s =
  match forOf xs body s with
  | (Return _, s') => forOf ys body s'
  | (Throw e, s') => (Throw e, s')
  end.
Proof.
  revert s. induction xs as [|x xs IH]; intros s; cbn [forOf app]; [reflexivity|].
  unfold bind. destruct (body x s) as [[[]|e] s']; [apply IH | reflexivity].
Qed.

Lemma grows_refl (l : nat) (s : Store) :
  is_Some (arrays s !! l) -> grows l [] s s.
Proof. intros Hs. split; [rewrite app_nil_r; reflexivity|]. split; [exact Hs|auto]. Qed.

Lemma grows_trans (l : nat) (a b : list FunctionComplexity) (s1 s2 s3 : Store) :
  is_Some (arrays s1 !! l) ->
  grows l a s1 s2 -> grows l b s2 s3 -> grows l (a ++ b) s1 s3.
Proof.
  intros Hs (Ha & Hs2 & Hk1) (Hb & Hs3 & Hk2).
  split; [rewrite Hb, Ha, app_assoc; reflexivity|]. split; [exact Hs3|].
  intros l' Hl' Hne. rewrite Hk2, Hk1; auto. rewrite Hk1; auto.
Qed.

Lemma grows_console (l : nat) (line : ConsoleLine) (s : Store) :
  is_Some (arrays s !! l) ->
  grows l [] s (mkStore (arrays s) (console s ++ [line])).
Proof.
  intros Hs. split; [unfold readArray; cbn; rewrite app_nil_r; reflexivity|].
  split; [exact Hs|auto].
Qed.

Lemma walkEntry_records (below : string -> list FunctionComplexity -> Prop)
    (recur : string -> St Store unit) (stack : nat) (host : Host)
    (extensions : list string) (all : nat) (dir file : string)
    (records : list FunctionComplexity) (s : Store) :
  (forall sub records' s0, below sub records' -> is_Some (arrays s0 !! all) ->
     exists s', recur sub s0 = (Return tt, s') /\ grows all records' s0 s') ->
  entryRecords below stack host extensions dir file records ->
  is_Some (arrays s !! all) ->
  exists s',
    walkEntry recur stack host extensions all dir file s = (Return tt, s') /\
    grows all records s s'.
Proof.
  intros Hrecur (stat & Hstat & Hcase) Hs. unfold walkEntry, bind, lift.
  rewrite Hstat. destruct (isDirectory stat).
  - unfold excluded in Hcase.
    destruct (startsWith file "."), (String.eqb file "node_modules"),
      (String.eqb file "dist"); cbn in Hcase |- *;
      try (subst records; exists s; split; [reflexivity | apply grows_refl, Hs]).
    apply Hrecur; assumption.
  - destruct (existsb (fun ext => endsWith file ext) extensions);
      [|subst records; exists s; split; [reflexivity | apply grows_refl, Hs]].
    rewrite consoleWrite_run. cbn iota beta.
    set (s1 := mkStore (arrays s) _).
    assert (Hs1 : is_Some (arrays s1 !! all)) by exact Hs.
    destruct Hcase as [[Hfail ->]|[sourceFile [Hloads ->]]].
    + destruct (analyzeFile_load_fails stack host _ s1 Hfail)
        as (e & l & s2 & Hrun & Hempty & _ & Hkeep).
      rewrite Hrun. unfold gets, push, modify. rewrite Hempty.
      rewrite pushed_nil by (rewrite (Hkeep _ Hs1); exact Hs1).
      exists s2. split; [reflexivity|].
      split; [unfold readArray; rewrite (Hkeep _ Hs1), app_nil_r; reflexivity|].
      split; [rewrite (Hkeep _ Hs1); exact Hs1|].
      intros l' Hl' _. apply (Hkeep l' Hl').
    + rewrite (analyzeFile_loads stack host _ sourceFile s1 Hloads).
      unfold gets, push, modify.
      rewrite readArray_pushed, readArray_writeArray. cbn [app].
      set (l0 := fresh (dom (arrays s1))).
      assert (Hne : l0 <> all) by (apply fresh_not_alive, Hs1).
      eexists. split; [reflexivity|].
      assert (Hread : forall l', l' <> l0 ->
                arrays (pushed l0 (fileRecords sourceFile) (writeArray l0 [] s1)) !! l'
                = arrays s !! l').
      { intros l' Hl'. unfold pushed. rewrite !lookup_writeArray_ne by congruence.
        reflexivity. }
      split; [|split].
      * rewrite readArray_pushed. f_equal. unfold readArray.
        rewrite Hread by congruence. reflexivity.
      * apply pushed_alive. rewrite Hread by congruence. exact Hs.
      * intros l' Hl' Hl'ne. unfold pushed at 1.
        rewrite lookup_writeArray_ne by congruence. apply Hread.
        intros ->. apply (fresh_not_alive l0 s1 Hl'). reflexivity.
Qed.

Lemma forOf_grows {A} (all : nat) (P : A -> list FunctionComplexity -> Prop)
    (body : A -> St Store unit) (xs : list A)
    (contributions : list (list FunctionComplexity)) :
  (forall x records s, P x records -> is_Some (arrays s !! all) ->
     exists s', body x s = (Return tt, s') /\ grows all records s s') ->
  Forall2 P xs contributions ->
  forall s, is_Some (arrays s !! all) ->
    exists s', forOf xs body s = (Return tt, s') /\
               grows all (concat contributions) s s'.
Proof.
  intros Hbody Hall. induction Hall as [|x r xs rs Hx Hxs IH]; intros s Hs.
  - exists s. split; [reflexivity | apply grows_refl, Hs].
  - destruct (Hbody x r s Hx Hs) as (s1 & Hrun & Hg).
    destruct (IH s1 (proj1 (proj2 Hg))) as (s2 & Hrest & Hg2).
    exists s2. cbn [forOf concat]. unfold bind. rewrite Hrun.
    split; [exact Hrest|]. eapply grows_trans; eassumption.
Qed.

Lemma walk_records (host : Host) (extensions : list string) (all : nat)
    (stack : nat) :
  forall dir records s,
    dirRecords stack host extensions dir records ->
    is_Some (arrays s !! all) ->
    exists s', walk stack host extensions all dir s = (Return tt, s') /\
               grows all records s s'.
Proof.
  induction stack as [|stack IH]; intros dir records s Hd Hs; [destruct Hd|].
  destruct Hd as (files & contributions & Hlist & Hall & ->).
  cbn [walk]. unfold bind, lift. rewrite Hlist.
  apply (forOf_grows all
           (entryRecords (dirRecords stack host extensions) stack host extensions dir));
    [|exact Hall|exact Hs].
  intros file records s0 Hentry Hs0.
  apply (walkEntry_records (dirRecords stack host extensions)); [|exact Hentry|exact Hs0].
  intros sub records' s1 Hsub Hs1. apply IH; assumption.
Qed.

(** X9.  For a directory tree that is listed within the call stack and in
    which every entry can be stat'ed, [analyzeDirectory] returns a new
    array holding, in listing order, the records of every file that has one
    of the extensions and loads, with subdirectories expanded in place;
    directories named [node_modules] or [dist] or starting with a dot are
    not entered, files with other extensions are not read, and files that
    fail to load add nothing.  No array that existed before is changed. *)
Theorem analyzeDirectory_aggregates_in_listing_order
    (stack : nat) (host : Host) (extensions : list string) (dir : string)
    (records : list FunctionComplexity) (s : Store) :
  dirRecords stack host extensions dir records ->
  exists l s',
    analyzeDirectory stack host dir extensions s = (Return l, s') /\
    arrays s !! l = None /\
    readArray l s' = records /\
    forall l', is_Some (arrays s !! l') -> arrays s' !! l' = arrays s !! l'.
Proof.
  intros Hd. unfold analyzeDirectory, newArray, bind, ret.
  set (l := fresh (dom (arrays s))). set (s0 := writeArray l [] s).
  assert (Hs0 : is_Some (arrays s0 !! l)).
  { unfold s0, writeArray; cbn. rewrite lookup_insert_eq. eauto. }
  destruct (walk_records host extensions l stack dir records s0 Hd Hs0)
    as (s' & Hrun & Hread & _ & Hkeep).
  rewrite Hrun. exists l, s'. split; [reflexivity|].
  split; [apply fresh_unallocated|].
  split; [rewrite Hread; unfold s0; rewrite readArray_writeArray; reflexivity|].
  intros l' Hl'.
  assert (Hne : l' <> l) by (intros ->; exact (fresh_not_alive _ s Hl' eq_refl)).
  rewrite Hkeep; [apply lookup_writeArray_ne; congruence | | exact Hne].
  apply writeArray_alive, Hl'.
Qed.

Lemma analyzeDirectory_aggregates_in_listing_order_witness :
  dirRecords 10 treeHost defaultExtensions "proj"
    (fileRecords otherFile ++ fileRecords smallFile) /\
  exists l s',
    analyzeDirectory 10 treeHost "proj" defaultExtensions emptyStore = (Return l, s') /\
    map name (readArray l s') = ["k"; "f"]%string.
Proof.
  assert (Hother : loads 8 treeHost "proj/lib/other.ts" otherFile).
  { split; [exists "other"%string; split; reflexivity|].
    split; [reflexivity | vm_compute; lia]. }
  assert (Hsmall : loads 9 treeHost "proj/small.ts" smallFile).
  { split; [exists "small"%string; split; reflexivity|].
    split; [reflexivity | vm_compute; lia]. }
  assert (Hlib : dirRecords 9 treeHost defaultExtensions "proj/lib"
                   (fileRecords otherFile)).
  { exists ["other.ts"; "dist"]%string, [fileRecords otherFile; []].
    split; [reflexivity|]. split; [|reflexivity].
    repeat constructor.
    - eexists. split; [reflexivity|]. right. exists otherFile. split; [exact Hother|].
      reflexivity.
    - eexists. split; [reflexivity|]. reflexivity. }
  assert (H : dirRecords 10 treeHost defaultExtensions "proj"
                (fileRecords otherFile ++ fileRecords smallFile)).
  { exists ["node_modules"; ".git"; "lib"; "small.ts"; "README.md"]%string,
      [[]; []; fileRecords otherFile; fileRecords smallFile; []].
    split; [reflexivity|]. split; [|reflexivity].
    repeat constructor.
    - eexists. split; [reflexivity|]. reflexivity.
    - eexists. split; [reflexivity|]. reflexivity.
    - eexists. split; [reflexivity|]. exact Hlib.
    - eexists. split; [reflexivity|]. right. exists smallFile. split; [exact Hsmall|].
      reflexivity.
    - eexists. split; [reflexivity|]. reflexivity. }
  split; [exact H|].
  destruct (analyzeDirectory_aggregates_in_listing_order 10 treeHost defaultExtensions
              "proj" _ emptyStore H) as (l & s' & Hrun & _ & Hread & _).
  exists l, s'. split; [exact Hrun|]. rewrite Hread. reflexivity.
Defined.

(** X10.  Failures of the directory calls are not caught.  When the
    directory cannot be listed, or when one of its entries cannot be
    stat'ed after the entries before it were processed, [analyzeDirectory]
    throws that error: no aggregate is returned and the entries after the
    failing one are never looked at. *)
Theorem analyzeDirectory_propagates_directory_errors
    (stack : nat) (host : Host) (extensions : list string) (dir : string)
    (e : Error) (s : Store) :
  (readdirSync host dir = Throw e \/
   exists before file after contributions,
     readdirSync host dir = Return (before ++ file :: after) /\
     Forall2 (entryRecords (dirRecords stack host extensions) stack host extensions dir)
       before contributions /\
     statSync host (path_join host dir file) = Throw e) ->
  exists s', analyzeDirectory (S stack) host dir extensions s = (Throw e, s').
Proof.
  intros Hfail. unfold analyzeDirectory, newArray, bind, ret.
  set (l := fresh (dom (arrays s))). set (s0 := writeArray l [] s).
  assert (Hs0 : is_Some (arrays s0 !! l)).
  { unfold s0, writeArray; cbn. rewrite lookup_insert_eq. eauto. }
  cbn [walk]. unfold bind, lift.
  destruct Hfail as [Hlist|(before & file & after & contributions & Hlist & Hall & Hstat)];
    rewrite Hlist.
  - eexists. reflexivity.
  - destruct (forOf_grows l
                (entryRecords (dirRecords stack host extensions) stack host
                   extensions dir)
                (walkEntry (walk stack host extensions l) stack host extensions l dir)
                before contributions) with (s := s0) as (s1 & Hrun & _);
      [|exact Hall|exact Hs0|].
    + intros x records s2 Hx Hs2.
      apply (walkEntry_records (dirRecords stack host extensions));
        [|exact Hx|exact Hs2].
      intros sub records' s3 Hsub Hs3. apply walk_records; assumption.
    + rewrite forOf_app_run, Hrun. cbn [forOf]. unfold bind at 1.
      unfold walkEntry at 1, bind, lift. rewrite Hstat.
      eexists. reflexivity.
Qed.

Lemma analyzeDirectory_propagates_directory_errors_witness :
  (exists s', analyzeDirectory 10 treeHost "locked" defaultExtensions emptyStore
              = (Throw (HostError "EACCES: permission denied"), s')) /\
  (exists s', analyzeDirectory 10 treeHost "bad" defaultExtensions emptyStore
              = (Throw (HostError "ENOENT: no such file or directory"), s')).
Proof.
  split.
  - apply (analyzeDirectory_propagates_directory_errors 9 treeHost defaultExtensions
             "locked"). left. reflexivity.
  - apply (analyzeDirectory_propagates_directory_errors 9 treeHost defaultExtensions
             "bad"). right.
    exists ["small.ts"%string], "ghost.ts"%string, ["other.ts"%string],
      [fileRecords smallFile].
    split; [reflexivity|]. split; [|reflexivity].
    repeat constructor. eexists. split; [reflexivity|]. right. exists smallFile.
    split; [|reflexivity].
    split; [exists "small"%string; split; reflexivity|].
    split; [reflexivity | vm_compute; lia].
Defined.

(** ** Ranking, filtering and the table *)

Lemma StronglySorted_app_parts {A} (R : A -> A -> Prop) (l1 l2 : list A) :
  StronglySorted R (l1 ++ l2) ->
  StronglySorted R l1 /\ StronglySorted R l2 /\
  forall x1 x2, In x1 l1 -> In x2 l2 -> R x1 x2.
Proof.
  induction l1 as [|x l1 IH]; cbn [app]; intros Hs.
  - split; [constructor|]. split; [exact Hs|]. intros x1 x2 [].
  - inversion Hs as [|? ? Hrest Hall]; subst.
    destruct (IH Hrest) as (H1 & H2 & H12).
    rewrite List.Forall_app in Hall. destruct Hall as [Ha1 Ha2].
    split; [constructor; assumption|]. split; [exact H2|].
    intros x1 x2 [->|Hin1] Hin2; [|apply H12; assumption].
    rewrite List.Forall_forall in Ha2. apply Ha2, Hin2.
Qed.

Lemma StronglySorted_List_filter {A} (R : A -> A -> Prop) (p : A -> bool) (l : list A) :
  StronglySorted R l -> StronglySorted R (List.filter p l).
Proof.
  induction 1 as [|x l Hl IH Hx]; cbn [List.filter]; [constructor|].
  destruct (p x); [|exact IH]. constructor; [exact IH|].
  apply List.Forall_forall. intros y Hy. apply List.filter_In in Hy as [Hy _].
  rewrite List.Forall_forall in Hx. apply Hx, Hy.
Qed.

Lemma sort_insert_filter {A} (key : A -> Z) (p : A -> bool) (x : A) (l : list A) :
  StronglySorted (fun a b => key b <= key a) l ->
  List.filter p (sort_insert (fun a b => key b - key a) x l) =
  if p x then sort_insert (fun a b => key b - key a) x (List.filter p l)
  else List.filter p l.
Proof.
  induction 1 as [|y l Hl IH Hy]; cbn [sort_insert List.filter].
  - destruct (p x); reflexivity.
  - destruct (Z.leb_spec (key y - key x) 0) as [Hle|Hgt]; cbn [List.filter].
    + destruct (p x); [|reflexivity].
      assert (Hhead : forall l', Forall (fun a => key a <= key x) l' ->
                sort_insert (fun a b => key b - key a) x l' = x :: l').
      { intros [|z l'] Hz; cbn [sort_insert]; [reflexivity|].
        apply List.Forall_inv in Hz.
        destruct (Z.leb_spec (key z - key x) 0); [reflexivity|lia]. }
      rewrite Hhead; [reflexivity|].
      apply List.Forall_forall. intros z Hz.
      assert (Hin : In z (y :: l)).
      { destruct (p y); [destruct Hz as [<-|Hz]; [left; reflexivity|]|];
          right; apply List.filter_In in Hz; apply Hz. }
      destruct Hin as [<-|Hin]; [lia|].
      rewrite List.Forall_forall in Hy. specialize (Hy z Hin). cbn beta in Hy. lia.
    + rewrite IH. destruct (p y), (p x); cbn [sort_insert]; try reflexivity.
      destruct (Z.leb_spec (key y - key x) 0); [lia|reflexivity].
Qed.

Lemma Array_sort_filter {A} (key : A -> Z) (p : A -> bool) (l : list A) :
  List.filter p (Array_sort (fun a b => key b - key a) l) =
  Array_sort (fun a b => key b - key a) (List.filter p l).
Proof.
  induction l as [|x l IH]; [reflexivity|].
  cbn [Array_sort List.filter].
  rewrite sort_insert_filter by apply Array_sort_sorted.
  rewrite IH. destruct (p x); reflexivity.
Qed.

Lemma Array_sort_sorted_id {A} (key : A -> Z) (l : list A) :
  StronglySorted (fun a b => key b <= key a) l ->
  Array_sort (fun a b => key b - key a) l = l.
Proof.
  induction 1 as [|x l Hl IH Hx]; [reflexivity|].
  cbn [Array_sort]. rewrite IH. destruct l as [|y l]; [reflexivity|].
  cbn [sort_insert]. apply List.Forall_inv in Hx.
  destruct (Z.leb_spec (key y - key x) 0); [reflexivity|lia].
Qed.

(** X11.  Ranking and filtering commute: the functions at or above the
    threshold taken from the ranked array are the ranking of the functions
    at or above the threshold, for any filter. *)
Theorem filter_of_ranking_is_ranking_of_filter
    (p : FunctionComplexity -> bool) (functions : list FunctionComplexity) :
  List.filter p (Array_sort byComplexityDescending functions) =
  Array_sort byComplexityDescending (List.filter p functions).
Proof. exact (Array_sort_filter cyclomaticComplexity p functions). Qed.

Lemma printSummary_console (functions : nat) (threshold : Z) (s : Store) :
  printed functions threshold s =
    let all := ranked (readArray functions s) in
    let complex := atOrAbove threshold all in
    if Nat.eqb (length (readArray functions s)) 0
    then [LogLine "분석할 함수가 없습니다."%string]
    else
      LogValues "복잡도 분석 결과 (임계값: ${threshold} 이상)" [threshold] ::
      if Nat.eqb (length complex) 0
      then [LogValues "✅ 모든 함수의 복잡도가 ${threshold} 미만입니다!" [threshold]]
      else
        LogValues "⚠️  복잡도 ${threshold} 이상 함수: ${complex.length}개"
          [threshold; Z.of_nat (length complex)] ::
        imap (fun i func => RankedRow (Z.of_nat i + 1) func) (take 10 complex) ++
        [Statistics (Z.of_nat (length all))
           (sumOf cyclomaticComplexity all) (sumOf linesOfCode all)
           (match map cyclomaticComplexity all with
            | [] => 0
            | x :: xs => Math_max x xs
            end);
         Distribution (simple all) (moderate all) (complexCount all) (veryComplex all)].
Proof.
  unfold printed, printSummary, bind, gets, modify, ranked, atOrAbove.
  destruct (Nat.eqb (length (readArray functions s)) 0).
  { rewrite consoleWrite_run. cbn [snd console]. apply drop_app_length. }
  rewrite readArray_writeArray, consoleWrite_run. cbn iota beta.
  match goal with |- context [Nat.eqb ?n 0] => destruct (Nat.eqb n 0) end;
    rewrite consoleWrite_run.
  { cbn [snd console arrays writeArray]. rewrite <- app_assoc. apply drop_app_length. }
  cbn iota beta. rewrite forOf_consoleWrite. cbn iota beta.
  rewrite !consoleWrite_run. cbn [snd console arrays writeArray fst].
  unfold readArray. cbn [arrays]. rewrite !lookup_insert_eq.
  cbn [default from_option id].
  rewrite <- !app_assoc. rewrite drop_app_length. reflexivity.
Qed.

Lemma rowsOf_rows (g : nat -> Z) (l : list FunctionComplexity) :
  rowsOf (imap (fun i func => RankedRow (g i) func) l) =
  imap (fun i func => (g i, func)) l.
Proof.
  revert g. induction l as [|x l IH]; intros g; [reflexivity|].
  cbn [imap]. unfold rowsOf in *. cbn [omap list_omap]. f_equal.
  apply (IH (fun i => g (S i))).
Qed.

Lemma rows_printed (functions : nat) (threshold : Z) (s : Store) :
  rowsOf (printed functions threshold s) =
  imap (fun i func => (Z.of_nat i + 1, func))
    (take 10 (atOrAbove threshold (ranked (readArray functions s)))).
Proof.
  rewrite printSummary_console. cbn zeta.
  destruct (Nat.eqb_spec (length (readArray functions s)) 0) as [Hlen|Hlen].
  { apply length_zero_iff_nil in Hlen. rewrite Hlen. reflexivity. }
  destruct (Nat.eqb_spec
              (length (atOrAbove threshold (ranked (readArray functions s)))) 0)
    as [Hnone|Hsome].
  { apply length_zero_iff_nil in Hnone. rewrite Hnone. reflexivity. }
  unfold rowsOf. cbn [omap list_omap]. rewrite omap_app. cbn [omap list_omap].
  rewrite app_nil_r. apply rowsOf_rows.
Qed.

(** X12.  The table of [printSummary] shows the top ten: its rows are the
    first ten functions (fewer if there are fewer) of the ranking among
    those at or above the threshold, numbered from 1; they are in
    descending order of complexity, and every function at or above the
    threshold that is not shown is no more complex than any that is. *)
Theorem table_shows_the_top_ten (functions : nat) (threshold : Z) (s : Store) :
  let complex := atOrAbove threshold (ranked (readArray functions s)) in
  rowsOf (printed functions threshold s) =
    imap (fun i func => (Z.of_nat i + 1, func)) (take 10 complex) /\
  (length (take 10 complex) <= 10)%nat /\
  Forall (fun f => threshold <= cyclomaticComplexity f) (take 10 complex) /\
  StronglySorted descendingByComplexity (take 10 complex) /\
  (forall shown hidden, In shown (take 10 complex) -> In hidden (drop 10 complex) ->
     cyclomaticComplexity hidden <= cyclomaticComplexity shown) /\
  Permutation (take 10 complex ++ drop 10 complex)
    (atOrAbove threshold (readArray functions s)).
Proof.
  intros complex.
  assert (Hsorted : StronglySorted descendingByComplexity
                      (take 10 complex ++ drop 10 complex)).
  { rewrite take_drop. apply StronglySorted_List_filter.
    exact (Array_sort_sorted cyclomaticComplexity _). }
  destruct (StronglySorted_app_parts _ _ _ Hsorted) as (Htake & _ & Hcross).
  split; [apply rows_printed|].
  split; [rewrite length_take; lia|].
  split.
  { apply List.Forall_forall. intros f Hf.
    assert (Hin : In f complex).
    { rewrite <- (take_drop 10 complex). apply List.in_or_app. left. exact Hf. }
    apply List.filter_In in Hin as [_ Hge]. lia. }
  split; [exact Htake|]. split; [exact Hcross|].
  rewrite take_drop. unfold complex, atOrAbove, ranked.
  rewrite (Array_sort_filter cyclomaticComplexity).
  symmetry. exact (Array_sort_Permutation cyclomaticComplexity _).
Qed.

Example table_of_fourteen :
  let s := mkStore {[ 0%nat := twelve ]} [] in
  map (fun row => (fst row, cyclomaticComplexity (snd row)))
    (rowsOf (printed 0 11 s)) =
  [(1, 50); (2, 40); (3, 30); (4, 25); (5, 22); (6, 18); (7, 16); (8, 15);
   (9, 14); (10, 13)].
Proof. vm_compute. reflexivity. Qed.

(** X13.  Ranking an array that is already ranked changes nothing, so a
    second [printSummary] on the same array, with whatever threshold,
    leaves the array exactly as the first call left it. *)
Theorem printSummary_twice_keeps_the_ranking
    (functions : nat) (first second : Z) (s : Store) :
  Array_sort byComplexityDescending
    (Array_sort byComplexityDescending (readArray functions s))
  = Array_sort byComplexityDescending (readArray functions s) /\
  readArray functions
    (snd (printSummary functions second (snd (printSummary functions first s))))
  = readArray functions (snd (printSummary functions first s)).
Proof.
  assert (Hid : forall l,
            Array_sort byComplexityDescending (Array_sort byComplexityDescending l)
            = Array_sort byComplexityDescending l).
  { intros l. apply (Array_sort_sorted_id cyclomaticComplexity).
    exact (Array_sort_sorted cyclomaticComplexity l). }
  split; [apply Hid|].
  assert (Hread : forall t s0,
            readArray functions (snd (printSummary functions t s0))
            = Array_sort byComplexityDescending (readArray functions s0)).
  { intros t s0. destruct (printSummary_effect functions t s0) as [_ Harr].
    unfold readArray at 1. rewrite Harr.
    destruct (Nat.eqb_spec (length (readArray functions s0)) 0) as [Hlen|Hlen].
    - apply length_zero_iff_nil in Hlen. rewrite Hlen. apply Hlen.
    - rewrite lookup_insert_eq. reflexivity. }
  rewrite !Hread. apply Hid.
Qed.

(** ** The statistics *)

Lemma figuresOf_rows (g : nat -> Z) (l : list FunctionComplexity) :
  figuresOf (imap (fun i func => RankedRow (g i) func) l) = [].
Proof.
  revert g. induction l as [|x l IH]; intros g; [reflexivity|].
  cbn [imap]. unfold figuresOf in *. cbn [List.filter]. apply (IH (fun i => g (S i))).
Qed.

Lemma sumOf_foldr (f : FunctionComplexity -> Z) (l : list FunctionComplexity) :
  sumOf f l = foldr (fun x a => f x + a) 0 l.
Proof.
  unfold sumOf.
  assert (H : forall a, foldl (fun sum x => sum + f x) a l
                        = a + foldr (fun x a => f x + a) 0 l).
  { induction l as [|x l IH]; intros a; cbn [foldl foldr]; [lia|]. rewrite IH. lia. }
  rewrite H. lia.
Qed.

Lemma sumOf_Permutation (f : FunctionComplexity -> Z) (l l' : list FunctionComplexity) :
  Permutation l l' -> sumOf f l = sumOf f l'.
Proof.
  intros Hp. rewrite !sumOf_foldr.
  induction Hp; cbn [foldr]; lia.
Qed.

Lemma filter_length_Permutation {A} (p : A -> bool) (l l' : list A) :
  Permutation l l' -> length (List.filter p l) = length (List.filter p l').
Proof.
  induction 1 as [|x l l' _ IH|x y l|l l' l'' _ IH1 _ IH2]; cbn [List.filter].
  - reflexivity.
  - destruct (p x); cbn [length]; lia.
  - destruct (p x), (p y); reflexivity.
  - lia.
Qed.

Lemma Math_max_greatest (x : Z) (xs : list Z) :
  Forall (fun y => y <= Math_max x xs) (x :: xs) /\
  Exists (fun y => y = Math_max x xs) (x :: xs).
Proof.
  unfold Math_max. induction xs as [|y ys [IHall IHex]]; cbn [foldr].
  - split; [repeat constructor; lia | left; reflexivity].
  - destruct (Z.max_spec y (foldr Z.max x ys)) as [[Hlt ->]|[Hle ->]].
    + inversion IHall as [|? ? Hx Hys]; subst. split.
      * constructor; [exact Hx|]. constructor; [lia|exact Hys].
      * inversion IHex as [? ? Hhere|? ? Htail]; subst;
          [left; exact Hhere | right; right; exact Htail].
    + inversion IHall as [|? ? Hx Hys]; subst. split.
      * constructor; [lia|]. constructor; [lia|].
        eapply List.Forall_impl; [|exact Hys]. cbn beta. intros; lia.
      * right. left. reflexivity.
Qed.

Lemma atOrAbove_none (threshold : Z) (functions : list FunctionComplexity) :
  existsb (fun f => threshold <=? cyclomaticComplexity f) functions = false ->
  atOrAbove threshold (ranked functions) = [].
Proof.
  intros Hnone. unfold atOrAbove, ranked.
  rewrite (Array_sort_filter cyclomaticComplexity).
  assert (Hfilter : List.filter (fun f => threshold <=? cyclomaticComplexity f) functions
                    = []).
  { induction functions as [|x l IH]; [reflexivity|].
    cbn [existsb] in Hnone. apply orb_false_iff in Hnone as [Hx Hl].
    cbn [List.filter]. rewrite Hx. apply IH, Hl. }
  rewrite Hfilter. reflexivity.
Qed.

Lemma atOrAbove_some (threshold : Z) (functions : list FunctionComplexity) :
  existsb (fun f => threshold <=? cyclomaticComplexity f) functions = true ->
  functions <> [] /\ atOrAbove threshold (ranked functions) <> [].
Proof.
  intros Hsome. apply List.existsb_exists in Hsome as [f [Hin Hf]].
  split; [intros ->; destruct Hin|].
  assert (Hin' : In f (atOrAbove threshold (ranked functions))).
  { apply List.filter_In. split; [|exact Hf].
    eapply Permutation_in; [exact (Array_sort_Permutation cyclomaticComplexity _)|].
    exact Hin. }
  intros Hnil. rewrite Hnil in Hin'. destruct Hin'.
Qed.

(** X14.  [printSummary] prints the statistics and the distribution
    exactly when at least one function reaches the threshold.  When it
    does, the figures describe the whole array, not only the functions in
    the table: the count, the two sums and the four tallies are those of
    the array as it was passed in (the reordering does not change them),
    and the maximum is a complexity at least as large as every function's
    and attained by one of them. *)
Theorem figures_printed_when_threshold_reached
    (functions : nat) (threshold : Z) (s : Store) :
  let all := readArray functions s in
  if existsb (fun f => threshold <=? cyclomaticComplexity f) all then
    exists maxComplexity,
      figuresOf (printed functions threshold s) =
        [Statistics (Z.of_nat (length all)) (sumOf cyclomaticComplexity all)
           (sumOf linesOfCode all) maxComplexity;
         Distribution (simple all) (moderate all) (complexCount all) (veryComplex all)]
      /\ Forall (fun f => cyclomaticComplexity f <= maxComplexity) all
      /\ Exists (fun f => cyclomaticComplexity f = maxComplexity) all
  else figuresOf (printed functions threshold s) = [].
Proof.
  intros all. rewrite printSummary_console. cbn zeta. fold all.
  assert (Hperm : Permutation all (ranked all))
    by exact (Array_sort_Permutation cyclomaticComplexity all).
  destruct (existsb (fun f => threshold <=? cyclomaticComplexity f) all) eqn:Hex.
  - destruct (atOrAbove_some threshold all Hex) as [Hall Hcomplex].
    destruct (Nat.eqb_spec (length all) 0) as [Hlen|_];
      [apply length_zero_iff_nil in Hlen; contradiction|].
    destruct (Nat.eqb_spec (length (atOrAbove threshold (ranked all))) 0) as [Hlen|_];
      [apply length_zero_iff_nil in Hlen; contradiction|].
    destruct (map cyclomaticComplexity (ranked all)) as [|x xs] eqn:Hmap.
    { exfalso. apply Hall, length_zero_iff_nil.
      rewrite (Permutation_length Hperm). apply (f_equal length) in Hmap.
      rewrite length_map in Hmap. exact Hmap. }
    exists (Math_max x xs). split; [|split].
    + unfold figuresOf. cbn [List.filter]. rewrite List.filter_app.
      fold (figuresOf (imap (fun i func => RankedRow (Z.of_nat i + 1) func)
                         (take 10 (atOrAbove threshold (ranked all))))).
      rewrite figuresOf_rows. cbn [List.filter app].
      rewrite <- (Permutation_length Hperm),
        <- (sumOf_Permutation cyclomaticComplexity _ _ Hperm),
        <- (sumOf_Permutation linesOfCode _ _ Hperm).
      unfold simple, moderate, complexCount, veryComplex.
      rewrite <- !(filter_length_Permutation _ _ _ Hperm). reflexivity.
    + destruct (Math_max_greatest x xs) as [Hge _]. rewrite <- Hmap in Hge.
      rewrite List.Forall_map in Hge. symmetry in Hperm.
      exact (Permutation_Forall Hperm Hge).
    + destruct (Math_max_greatest x xs) as [_ Hat]. rewrite <- Hmap in Hat.
      rewrite List.Exists_map in Hat. symmetry in Hperm.
      exact (Permutation_Exists Hperm Hat).
  - rewrite (atOrAbove_none threshold all Hex). cbn [length Nat.eqb].
    destruct (Nat.eqb (length all) 0); reflexivity.
Qed.

(** ** The command line *)


Lemma indexOf_first (x : string) (before after : list string) :
  ~ In x before -> indexOf x (before ++ x :: after) = Some (length before).
Proof.
  induction before as [|y rest IH]; intros Hnot; cbn [indexOf app length].
  - rewrite String.eqb_refl. reflexivity.
  - destruct (String.eqb_spec y x) as [->|_]; [exfalso; apply Hnot; left; reflexivity|].
    rewrite IH; [reflexivity|]. intros Hin. apply Hnot. right. exact Hin.
Qed.

Lemma thresholdArgument_given (before after : list string) (text : string) :
  ~ In "--threshold"%string before -> text <> ""%string ->
  thresholdArgument (before ++ "--threshold"%string :: text :: after) = Some text.
Proof.
  intros Hnot Htext. unfold thresholdArgument. rewrite indexOf_first by exact Hnot.
  replace ((before ++ "--threshold"%string :: text :: after) !! (length before + 1)%nat)
    with (Some text).
  - destruct text; [congruence|reflexivity].
  - symmetry. rewrite lookup_app_r by lia.
    replace (length before + 1 - length before)%nat with 1%nat by lia. reflexivity.
Qed.


(** X15.  A [--threshold] value that [parseInt] cannot read ends the run
    at once: [main] exits with code 1 after one error line, whatever the
    target is and before it is looked at, so nothing is read and no array
    is created. *)
Theorem main_rejects_unreadable_threshold
    (stack : nat) (proc : Process) (before after : list string) (text : string)
    (s : Store) :
  ~ In "--threshold"%string before ->
  text <> ""%string ->
  parseInt proc text = None ->
  main stack proc (before ++ "--threshold"%string :: text :: after) s =
    (Return (Exited 1),
     mkStore (arrays s)
       (console s ++ [ErrorLine "❌ 임계값은 숫자여야 합니다."%string])).
Proof.
  intros Hnot Htext Hnan. unfold main.
  rewrite (thresholdArgument_given before after text Hnot Htext), Hnan.
  destruct (before ++ "--threshold"%string :: text :: after) eqn:Hargs.
  - destruct before; discriminate Hargs.
  - reflexivity.
Qed.

Lemma main_rejects_unreadable_threshold_witness :
  ~ In "--threshold"%string ["nowhere.ts"%string] /\
  parseInt treeProcess "ten" = None /\
  main 10 treeProcess ["nowhere.ts"; "--threshold"; "ten"]%string emptyStore =
    (Return (Exited 1),
     mkStore ∅ [ErrorLine "❌ 임계값은 숫자여야 합니다."%string]).
Proof.
  assert (H1 : ~ In "--threshold"%string ["nowhere.ts"%string]).
  { intros [H|[]]. discriminate H. }
  assert (H2 : "ten"%string <> ""%string) by discriminate.
  assert (H3 : parseInt treeProcess "ten" = None) by reflexivity.
  split; [exact H1|]. split; [exact H3|].
  exact (main_rejects_unreadable_threshold 10 treeProcess ["nowhere.ts"%string] []
           "ten" emptyStore H1 H2 H3).
Defined.



(** X17.  For a single script file that exists and loads, [main] runs to
    its end; the array it summarises is the one [analyzeFile] returned,
    which afterwards holds the file's records ranked, and the table shows
    the top ten of those at or above the threshold given on the command
    line (10 when none is given).  Arrays that existed before are
    unchanged. *)
Theorem main_summarises_a_single_file
    (stack : nat) (proc : Process) (target : string) (rest : list string)
    (threshold : Z) (stat : Stats) (sourceFile : SourceFile) (s : Store) :
  match thresholdArgument (target :: rest) with
  | Some text => parseInt proc text
  | None => Some 10
  end = Some threshold ->
  existsSync proc target = true ->
  statSync (fsHost proc) target = Return stat ->
  isFile proc target = true ->
  matchesScriptExtension target = true ->
  loads stack (fsHost proc) target sourceFile ->
  exists l s',
    main stack proc (target :: rest) s = (Return Finished, s') /\
    arrays s !! l = None /\
    readArray l s' = ranked (fileRecords sourceFile) /\
    rowsOf (drop (length (console s)) (console s')) =
      imap (fun i func => (Z.of_nat i + 1, func))
        (take 10 (atOrAbove threshold (ranked (fileRecords sourceFile)))) /\
    forall l', is_Some (arrays s !! l') -> arrays s' !! l' = arrays s !! l'.
Proof.
  intros Hth Hexists Hstat Hfile Hext Hloads.
  unfold main. rewrite Hth, Hexists. cbn [negb].
  unfold bind at 1, newArray at 1. unfold bind at 1, lift at 1. rewrite Hstat, Hfile, Hext.
  set (l0 := fresh (dom (arrays s))). set (s0 := writeArray l0 [] s).
  unfold bind at 1. rewrite (analyzeFile_loads stack (fsHost proc) target sourceFile s0 Hloads).
  set (l := fresh (dom (arrays s0))).
  set (s1 := pushed l (fileRecords sourceFile) (writeArray l [] s0)).
  assert (Hl0 : is_Some (arrays s0 !! l0)).
  { unfold s0, writeArray; cbn. rewrite lookup_insert_eq. eauto. }
  assert (Hne : l <> l0) by (apply fresh_not_alive, Hl0).
  assert (Hread1 : readArray l s1 = fileRecords sourceFile).
  { unfold s1. rewrite readArray_pushed, readArray_writeArray. reflexivity. }
  assert (Hconsole1 : console s1 = console s) by reflexivity.
  destruct (printSummary_effect l threshold s1) as [Hret Harr].
  pose proof (rows_printed l threshold s1) as Hrows.
  unfold printed in Hrows. rewrite Hconsole1, Hread1 in Hrows.
  unfold bind. destruct (printSummary l threshold s1) as [r s2] eqn:Hrun.
  cbn [fst snd] in *. subst r. unfold ret.
  exists l, s2. split; [reflexivity|].
  assert (Hold : forall l', is_Some (arrays s !! l') -> l' <> l /\ l' <> l0).
  { intros l' Hl'. split.
    - intros ->. apply (fresh_not_alive l s0); [|reflexivity].
      apply writeArray_alive, Hl'.
    - intros ->. exact (fresh_not_alive l0 s Hl' eq_refl). }
  split.
  { destruct (arrays s !! l) eqn:Hl; [|reflexivity].
    destruct (Hold l ltac:(rewrite Hl; eauto)) as [Hcontra _]. congruence. }
  split.
  { unfold readArray at 1. rewrite Harr, Hread1.
    destruct (Nat.eqb_spec (length (fileRecords sourceFile)) 0) as [Hlen|Hlen].
    - apply length_zero_iff_nil in Hlen. rewrite Hlen.
      change (default [] (arrays s1 !! l)) with (readArray l s1).
      rewrite Hread1, Hlen. reflexivity.
    - rewrite lookup_insert_eq. reflexivity. }
  split; [exact Hrows|].
  intros l' Hl'. destruct (Hold l' Hl') as [Hnl Hnl0]. rewrite Harr.
  assert (Hs1 : arrays s1 !! l' = arrays s !! l').
  { unfold s1, pushed, s0. rewrite !lookup_writeArray_ne by congruence. reflexivity. }
  destruct (Nat.eqb (length (readArray l s1)) 0); [exact Hs1|].
  rewrite lookup_insert_ne by congruence. exact Hs1.
Qed.

Lemma main_summarises_a_single_file_witness :
  loads 10 treeHost "proj/small.ts" smallFile /\
  exists l s',
    main 10 treeProcess ["proj/small.ts"; "--threshold"; "2"]%string emptyStore
      = (Return Finished, s') /\
    map name (readArray l s') = ["f"%string] /\
    map (fun row => (fst row, name (snd row))) (rowsOf (console s'))
      = [(1, "f"%string)].
Proof.
  assert (H : loads 10 treeHost "proj/small.ts" smallFile).
  { split; [exists "small"%string; split; reflexivity|].
    split; [reflexivity | vm_compute; lia]. }
  split; [exact H|].
  destruct (main_summarises_a_single_file 10 treeProcess "proj/small.ts"
              ["--threshold"; "2"]%string 2 (mkStats false) smallFile emptyStore
              eq_refl eq_refl eq_refl eq_refl eq_refl H)
    as (l & s' & Hrun & _ & Hread & Hrows & _).
  exists l, s'. split; [exact Hrun|].
  split; [rewrite Hread; reflexivity|].
  cbn [console emptyStore length] in Hrows. rewrite drop_0 in Hrows.
  rewrite Hrows. reflexivity.
Defined.

(** ** File names *)

Lemma chars_rev_app (s acc : string) :
  String.list_ascii_of_string (String.rev_app s acc) =
  rev (String.list_ascii_of_string s) ++ String.list_ascii_of_string acc.
Proof.
  revert acc. induction s as [|c s IH]; intros acc; cbn; [reflexivity|].
  rewrite IH. cbn. rewrite <- app_assoc. reflexivity.
Qed.

Lemma prefix_chars (p s : string) :
  String.prefix p s = true <->
  exists t, String.list_ascii_of_string s = String.list_ascii_of_string p ++ t.
Proof.
  revert s. induction p as [|a p IH]; intros s.
  - destruct s; cbn; (split; [intros _; eexists; reflexivity | reflexivity]).
  - destruct s as [|b s]; cbn.
    + split; [discriminate | intros [t Ht]; discriminate Ht].
    + destruct (Ascii.ascii_dec a b) as [->|Hne].
      * rewrite IH. split; intros [t Ht]; exists t; congruence.
      * split; [discriminate | intros [t Ht]; congruence].
Qed.

Lemma endsWith_chars (s p : string) :
  endsWith s p = true <->
  exists before, String.list_ascii_of_string s
                 = before ++ String.list_ascii_of_string p.
Proof.
  unfold endsWith, String.rev. rewrite prefix_chars, !chars_rev_app.
  cbn [String.list_ascii_of_string]. rewrite !app_nil_r. split.
  - intros [t Ht]. exists (rev t). apply (f_equal (@rev _)) in Ht.
    rewrite List.rev_involutive, List.rev_app_distr, List.rev_involutive in Ht.
    exact Ht.
  - intros [before Hb]. exists (rev before). rewrite Hb. apply List.rev_app_distr.
Qed.

Lemma chars_inj (s t : string) :
  String.list_ascii_of_string s = String.list_ascii_of_string t -> s = t.
Proof.
  intros H. rewrite <- (String.string_of_list_ascii_of_string s),
    <- (String.string_of_list_ascii_of_string t), H. reflexivity.
Qed.

Lemma matchesScriptExtension_chars (s : string) :
  matchesScriptExtension s = true <->
  exists before ext, In ext defaultExtensions /\
    String.list_ascii_of_string s = before ++ String.list_ascii_of_string ext.
Proof.
  split.
  - induction s as [|c rest IH]; cbn [matchesScriptExtension]; [discriminate|].
    intros H. apply orb_true_iff in H as [H|H].
    + apply andb_true_iff in H as [Hdot Halt]. apply String.eqb_eq in Hdot.
      exists [], (String c rest). split; [|reflexivity].
      injection Hdot as ->.
      repeat (apply orb_true_iff in Halt as [Halt|Halt]);
        apply String.eqb_eq in Halt; subst rest; cbn; tauto.
    + destruct (IH H) as (before & ext & Hin & Hs).
      exists (c :: before), ext. split; [exact Hin|]. cbn. rewrite Hs. reflexivity.
  - intros (before & ext & Hin & Hs). revert s Hs.
    induction before as [|c before IH]; intros s Hs.
    + apply chars_inj in Hs. subst s.
      cbn in Hin. destruct Hin as [<-|[<-|[<-|[<-|[]]]]]; reflexivity.
    + destruct s as [|c' rest]; [discriminate Hs|]. cbn in Hs. injection Hs as -> Hrest.
      cbn [matchesScriptExtension]. rewrite (IH rest Hrest). apply orb_true_r.
Qed.

(** X18.  The two extension checks agree: [main] accepts a single file,
    by its regular expression, exactly when the directory walk, by
    [endsWith] over its default extensions, would analyze a file of that
    name. *)
Theorem single_file_check_agrees_with_walk (path : string) :
  matchesScriptExtension path =
  existsb (fun ext => endsWith path ext) defaultExtensions.
Proof.
  apply eq_true_iff_eq. rewrite matchesScriptExtension_chars, List.existsb_exists.
  split.
  - intros (before & ext & Hin & Hs). exists ext. split; [exact Hin|].
    apply endsWith_chars. exists before. exact Hs.
  - intros (ext & Hin & Hends). apply endsWith_chars in Hends as [before Hs].
    exists before, ext. split; assumption.
Qed.

Example extension_checks :
  map matchesScriptExtension
    ["a.ts"; "a.tsx"; "a.js"; "a.jsx"; "a.d.ts"; ".ts"; "a.ts.bak"; "ats"; "a.TS"; ""]
  = [true; true; true; true; true; true; false; false; false; false].
Proof. reflexivity. Qed.

(** ** What [analyze] does in every case *)

Lemma lookup_pushed_ne (l l' : nat) (items : list FunctionComplexity) (s : Store) :
  l <> l' -> arrays (pushed l items s) !! l' = arrays s !! l'.
Proof. apply lookup_writeArray_ne. Qed.

Lemma analyzeFunctionNode_outcome (stack : nat) (this : ComplexityAnalyzer)
    (sourceFile : SourceFile) (parent node : Node) (s : Store) :
  is_Some (arrays s !! functions this) ->
  analyzeFunctionNode stack this sourceFile (Some parent) node s =
    (Return tt, pushed (functions this) [recordFor sourceFile (parent, node)] s) \/
  analyzeFunctionNode stack this sourceFile (Some parent) node s =
    (Throw stackOverflow, pushed (functions this) [] s).
Proof.
  intros Hs. destruct (Nat.le_gt_cases (height node) (S stack)) as [Hfit|Hdeep].
  - left. apply analyzeFunctionNode_spec, Hfit.
  - right. unfold analyzeFunctionNode, bind.
    rewrite getFunctionName_displayName,
      (calculateComplexity_overflows stack node s Hdeep), pushed_nil by exact Hs.
    reflexivity.
Qed.

Lemma forOf_prefix {A} (l : nat) (e0 : Error) (g : A -> list FunctionComplexity)
    (body : A -> St Store unit) (xs : list A) :
  (forall x s, is_Some (arrays s !! l) ->
     body x s = (Return tt, pushed l (g x) s) \/
     exists items, items `prefix_of` g x /\
                   body x s = (Throw e0, pushed l items s)) ->
  forall s, is_Some (arrays s !! l) ->
    forOf xs body s = (Return tt, pushed l (flat_map g xs) s) \/
    exists items, items `prefix_of` flat_map g xs /\
                  forOf xs body s = (Throw e0, pushed l items s).
Proof.
  intros Hbody. induction xs as [|x xs IH]; intros s Hs; cbn [forOf flat_map].
  - left. rewrite pushed_nil by exact Hs. reflexivity.
  - unfold bind. destruct (Hbody x s Hs) as [Hx|(items & Hpre & Hx)]; rewrite Hx.
    + destruct (IH (pushed l (g x) s) (pushed_alive l l _ s Hs))
        as [Hrest|(items & Hpre & Hrest)]; rewrite Hrest, pushed_pushed.
      * left. reflexivity.
      * right. exists (g x ++ items). split; [apply prefix_app, Hpre|reflexivity].
    + right. exists items. split; [apply prefix_app_r, Hpre|reflexivity].
Qed.

Lemma visitNode_outcome (this : ComplexityAnalyzer) (sourceFile : SourceFile)
    (stack : nat) :
  forall parent node s,
    is_Some (arrays s !! functions this) ->
    visitNode stack this sourceFile (Some parent) node s =
      (Return tt,
       pushed (functions this)
         (map (recordFor sourceFile)
            ((if isFunctionLike node then [(parent, node)] else [])
               ++ functionsBelow node)) s) \/
    exists items,
      items `prefix_of`
        map (recordFor sourceFile)
          ((if isFunctionLike node then [(parent, node)] else [])
             ++ functionsBelow node) /\
      visitNode stack this sourceFile (Some parent) node s =
        (Throw stackOverflow, pushed (functions this) items s).
Proof.
  induction stack as [|stack IH]; intros parent node s Hs.
  { right. exists []. split; [apply prefix_nil|].
    rewrite pushed_nil by exact Hs. reflexivity. }
  cbn [visitNode]. unfold bind, forEachChild.
  rewrite map_app, (functionsBelow_eq node), map_flat_map.
  pose proof (forOf_prefix (functions this) stackOverflow
    (fun c => map (recordFor sourceFile)
       ((if isFunctionLike c then [(node, c)] else []) ++ functionsBelow c))
    (visitNode stack this sourceFile (Some node)) (children node)
    (fun x s0 Hs0 => IH node x s0 Hs0)) as Hloop.
  destruct (isFunctionLike node); cbn [map app].
  - destruct (analyzeFunctionNode_outcome stack this sourceFile parent node s Hs)
      as [Hfirst|Hfirst]; rewrite Hfirst.
    + destruct (Hloop _ (pushed_alive (functions this) (functions this)
                           [recordFor sourceFile (parent, node)] s Hs))
        as [Hrest|(items & Hpre & Hrest)]; rewrite Hrest, pushed_pushed.
      * left. reflexivity.
      * right. exists (recordFor sourceFile (parent, node) :: items).
        split; [apply prefix_cons, Hpre|reflexivity].
    + right. exists []. split; [apply prefix_nil|reflexivity].
  - destruct (Hloop s Hs) as [Hrest|(items & Hpre & Hrest)]; cbn; rewrite Hrest.
    + left. reflexivity.
    + right. exists items. split; [exact Hpre|reflexivity].
Qed.

Lemma visitNode_root_outcome (this : ComplexityAnalyzer) (sourceFile : SourceFile)
    (stack : nat) (s : Store) :
  isFunctionLike (root sourceFile) = false ->
  is_Some (arrays s !! functions this) ->
  visitNode stack this sourceFile None (root sourceFile) s =
    (Return tt, pushed (functions this) (fileRecords sourceFile) s) \/
  exists items,
    items `prefix_of` fileRecords sourceFile /\
    visitNode stack this sourceFile None (root sourceFile) s =
      (Throw stackOverflow, pushed (functions this) items s).
Proof.
  intros Hroot Hs. destruct stack as [|stack].
  { right. exists []. split; [apply prefix_nil|].
    rewrite pushed_nil by exact Hs. reflexivity. }
  cbn [visitNode]. unfold bind, forEachChild. rewrite Hroot. cbn.
  unfold fileRecords. rewrite (functionsBelow_eq (root sourceFile)), map_flat_map.
  apply (forOf_prefix (functions this) stackOverflow
    (fun c => map (recordFor sourceFile)
       ((if isFunctionLike c then [(root sourceFile, c)] else []) ++ functionsBelow c)));
    [|exact Hs].
  intros x s0 Hs0. apply visitNode_outcome, Hs0.
Qed.

(** X19.  [analyze] never throws and never removes or rewrites a record,
    whatever the host does.  It returns either the accumulator, having
    written nothing to the console, or a new empty array after exactly one
    error line; in both cases the accumulator holds what it held before,
    followed by what was pushed. *)
Theorem analyze_always_returns
    (stack : nat) (host : Host) (this : ComplexityAnalyzer) (path : string)
    (s : Store) :
  is_Some (arrays s !! functions this) ->
  exists l s' pushedRecords,
    analyze stack host this path s = (Return l, s') /\
    readArray (functions this) s' = readArray (functions this) s ++ pushedRecords /\
    ((l = functions this /\ console s' = console s) \/
     (arrays s !! l = None /\ readArray l s' = [] /\
      exists e, console s' = console s ++ [analysisErrorLine path e])).
Proof.
  intros Hs.
  assert (Hcatch : forall e items,
    exists l s' pushedRecords,
      (Return (fresh (dom (arrays (pushed (functions this) items s)))),
       afterCatch path e (pushed (functions this) items s)) = (Return l, s') /\
      readArray (functions this) s' = readArray (functions this) s ++ pushedRecords /\
      ((l = functions this /\ console s' = console s) \/
       (arrays s !! l = None /\ readArray l s' = [] /\
        exists e, console s' = console s ++ [analysisErrorLine path e]))).
  { intros e items. eexists _, _, items. split; [reflexivity|].
    pose proof (pushed_alive (functions this) _ items s Hs) as Hp.
    split.
    - unfold readArray at 1. rewrite (afterCatch_keeps path e _ _ Hp).
      apply readArray_pushed.
    - right. split; [|split; [apply afterCatch_empty | exists e; reflexivity]].
      pose proof (fresh_unallocated (pushed (functions this) items s)) as Hfresh.
      destruct (decide (fresh (dom (arrays (pushed (functions this) items s)))
                        = functions this)) as [Heq|Hne].
      + rewrite Heq in Hfresh. rewrite Hfresh in Hp. destruct Hp; discriminate.
      + rewrite lookup_pushed_ne in Hfresh by congruence. exact Hfresh. }
  destruct (readFileSync host path) as [source|e] eqn:Hr.
  2:{ rewrite (analyze_read_fails stack host this path e s Hr).
      specialize (Hcatch e []). rewrite pushed_nil in Hcatch by exact Hs. exact Hcatch. }
  destruct (createSourceFile host path source) as [sourceFile|e] eqn:Hp.
  2:{ rewrite (analyze_parse_fails stack host this path source e s Hr Hp).
      specialize (Hcatch e []). rewrite pushed_nil in Hcatch by exact Hs. exact Hcatch. }
  destruct (visitNode_appends this sourceFile stack None (root sourceFile) s Hs)
    as [items Hitems].
  destruct (visitNode stack this sourceFile None (root sourceFile) s)
    as [[[]|e] sv] eqn:Hv; cbn in Hitems; subst sv.
  - rewrite (analyze_visit_returns stack host this path source sourceFile s _ Hr Hp Hv).
    eexists _, _, items. split; [reflexivity|].
    split; [apply readArray_pushed|]. left. split; reflexivity.
  - rewrite (analyze_visit_throws stack host this path source sourceFile e s _ Hr Hp Hv).
    apply Hcatch.
Qed.

Lemma analyze_always_returns_witness :
  is_Some (arrays exampleStore !! functions exampleAnalyzer) /\
  exists l s',
    analyze 10 exampleHost exampleAnalyzer "src/broken.ts" exampleStore
      = (Return l, s') /\
    l = 1%nat /\ readArray l s' = [].
Proof.
  assert (H : is_Some (arrays exampleStore !! functions exampleAnalyzer))
    by (vm_compute; eauto).
  split; [exact H|].
  destruct (analyze_always_returns 10 exampleHost exampleAnalyzer "src/broken.ts"
              exampleStore H) as (l & s' & items & Hrun & _ & _).
  exists l, s'. split; [exact Hrun|].
  vm_compute in Hrun. injection Hrun as <- <-. split; reflexivity.
Defined.

(** X20.  When the visit of a parsed file runs out of stack, what it
    leaves in the accumulator is a prefix of the file's records: the
    functions met before the overflow, in document order, each with the
    record a complete run gives it.  The array [analyze] returns is empty
    all the same. *)
Theorem overflow_leaves_a_prefix_of_the_records
    (stack : nat) (host : Host) (this : ComplexityAnalyzer) (path source : string)
    (sourceFile : SourceFile) (s : Store) :
  readFileSync host path = Return source ->
  createSourceFile host path source = Return sourceFile ->
  isFunctionLike (root sourceFile) = false ->
  is_Some (arrays s !! functions this) ->
  exists l s' kept,
    analyze stack host this path s = (Return l, s') /\
    kept `prefix_of` fileRecords sourceFile /\
    readArray (functions this) s' = readArray (functions this) s ++ kept /\
    (l = functions this /\ kept = fileRecords sourceFile \/
     l <> functions this /\ readArray l s' = []).
Proof.
  intros Hr Hp Hroot Hs.
  destruct (visitNode_root_outcome this sourceFile stack s Hroot Hs)
    as [Hv|(items & Hpre & Hv)].
  - eexists _, _, (fileRecords sourceFile).
    split; [exact (analyze_visit_returns stack host this path source sourceFile s _
                     Hr Hp Hv)|].
    split; [reflexivity|]. split; [apply readArray_pushed|]. left. split; reflexivity.
  - pose proof (pushed_alive (functions this) _ items s Hs) as Halive.
    eexists _, _, items.
    split; [exact (analyze_visit_throws stack host this path source sourceFile _ s _
                     Hr Hp Hv)|].
    split; [exact Hpre|]. split.
    + unfold readArray at 1. rewrite (afterCatch_keeps path _ _ _ Halive).
      apply readArray_pushed.
    + right. split; [apply fresh_not_alive, Halive | apply afterCatch_empty].
Qed.

Lemma overflow_leaves_a_prefix_of_the_records_witness :
  exists l s',
    analyze 5 exampleHost exampleAnalyzer "src/deep.ts" exampleStore = (Return l, s') /\
    map name (readArray (functions exampleAnalyzer) s') = ["first"%string] /\
    map name (fileRecords deepFile) = ["first"; "second"]%string.
Proof.
  assert (H : is_Some (arrays exampleStore !! functions exampleAnalyzer))
    by (vm_compute; eauto).
  destruct (overflow_leaves_a_prefix_of_the_records 5 exampleHost exampleAnalyzer
              "src/deep.ts" "deep" deepFile exampleStore eq_refl eq_refl eq_refl H)
    as (l & s' & kept & Hrun & _ & _ & _).
  exists l, s'. split; [exact Hrun|].
  vm_compute in Hrun. injection Hrun as <- <-. split; reflexivity.
Defined.
